(** * Resume analysis pipeline of [app.py]: a shallow embedding

    The development follows [src/app.py]:
    - [PyStr]  : the [str] methods the program calls ([strip], [find],
                 [rfind], slicing) on sequences of Unicode code points;
    - [Fmt]    : [str.format] with keyword arguments, as used by
                 [create_prompt];
    - [Json]   : [json.loads], as used by [parse_gemini_response];
    - [App]    : [get_gemini_response], [extract_pdf_text],
                 [parse_gemini_response], [create_prompt],
                 [display_results] and the analysis block of [main], written
                 in a state monad over the log, the calls made to the
                 completion backend and the widgets written to the page;
    - [Tabs]   : the skills-gap and recommendations tabs of
                 [display_results].

    Boundaries of the model.  A float is kept as the text handed to
    [float]; PyPDF2 and the Gemini client are external and appear as data
    ([UploadedFile]) and as an oracle ([generate_content]); the calls of
    [st] and [logger] do not raise. *)

From Stdlib Require Import List ZArith NArith Bool Lia String Ascii.
Import ListNotations.
Local Open Scope Z_scope.

(** ** Python strings *)

Module PyStr.

(** A Python [str] is a sequence of code points. *)
Definition pystr := list N.

(** An ASCII literal of the source, written as a Rocq string. *)
Definition lit (s : string) : pystr :=
  List.map N_of_ascii (list_ascii_of_string s).

(** A literal in which the character [q] stands for the double quote. *)
Definition quoted (q : N) (s : string) : pystr :=
  List.map (fun c => if N.eqb c q then 34%N else c) (lit s).

(** The apostrophe stands for the double quote. *)
Definition litq (s : string) : pystr := quoted 39 s.

Definition lbrace : N := 123.
Definition rbrace : N := 125.
Definition dquote : N := 34.

(** [a == b] *)
Fixpoint eqb (a b : pystr) : bool :=
  match a, b with
  | [], [] => true
  | x :: a', y :: b' => N.eqb x y && eqb a' b'
  | _, _ => false
  end.

Definition len (s : pystr) : Z := Z.of_nat (List.length s).

(** [str.isspace] on one code point: the characters [str.strip()] removes. *)
Definition isspace (c : N) : bool :=
  ((9 <=? c) && (c <=? 13) || (28 <=? c) && (c <=? 32)
   || (c =? 133) || (c =? 160) || (c =? 5760)
   || (8192 <=? c) && (c <=? 8202)
   || (c =? 8232) || (c =? 8233) || (c =? 8239) || (c =? 8287)
   || (c =? 12288))%N.

Fixpoint lstrip (s : pystr) : pystr :=
  match s with
  | [] => []
  | c :: r => if isspace c then lstrip r else s
  end.

Definition rstrip (s : pystr) : pystr := rev (lstrip (rev s)).

(** [s.strip()] *)
Definition strip (s : pystr) : pystr := rstrip (lstrip s).

Fixpoint find_from (c : N) (s : pystr) (i : Z) : Z :=
  match s with
  | [] => -1
  | x :: r => if N.eqb x c then i else find_from c r (i + 1)
  end.

(** [s.find(c)] for a one-character [c]: lowest index, or [-1]. *)
Definition find (c : N) (s : pystr) : Z := find_from c s 0.

Fixpoint rfind_from (c : N) (s : pystr) (i last : Z) : Z :=
  match s with
  | [] => last
  | x :: r => rfind_from c r (i + 1) (if N.eqb x c then i else last)
  end.

(** [s.rfind(c)] for a one-character [c]: highest index, or [-1]. *)
Definition rfind (c : N) (s : pystr) : Z := rfind_from c s 0 (-1).

(** Index normalisation of a slice bound. *)
Definition clamp (n i : Z) : Z :=
  if i <? 0 then Z.max 0 (i + n) else Z.min i n.

(** [s[a:b]] *)
Definition slice (s : pystr) (a b : Z) : pystr :=
  let a' := clamp (len s) a in
  let b' := clamp (len s) b in
  firstn (Z.to_nat (b' - a')) (skipn (Z.to_nat a') s).

(** [not s] *)
Definition falsy (s : pystr) : bool :=
  match s with [] => true | _ => false end.

(** [s.startswith(p)] *)
Fixpoint startswith (p s : pystr) : bool :=
  match p, s with
  | [], _ => true
  | x :: p', y :: s' => N.eqb x y && startswith p' s'
  | _ :: _, [] => false
  end.

(** [sub in s] *)
Fixpoint contains (sub s : pystr) : bool :=
  startswith sub s
  || match s with
     | [] => false
     | _ :: r => contains sub r
     end.

End PyStr.
Import PyStr.

(** ** Results of fallible calls *)

Inductive result (A E : Type) : Type :=
| Ok (a : A)
| Err (e : E).
Arguments Ok {A E} a.
Arguments Err {A E} e.

Definition rmap {A B E} (f : A -> B) (r : result A E) : result B E :=
  match r with
  | Ok a => Ok (f a)
  | Err e => Err e
  end.

Definition rbind {A B E} (r : result A E) (k : A -> result B E) : result B E :=
  match r with
  | Ok a => k a
  | Err e => Err e
  end.

(** ** [str.format] with keyword arguments *)

Module Fmt.

(** What [template.format(name=value, ...)] can raise.  [NotModelled] stands for the
    parts of the format mini-language the program's template does not use:
    conversions ([!r]), format specifications ([:>10]), attribute and index
    access ([a.b], [a[0]]) and explicit positions ([{0}]). *)
Inductive error : Type :=
| SingleRbrace      (* ValueError: Single '}' encountered in format string *)
| SingleLbrace      (* ValueError: Single '{' encountered in format string *)
| UnexpectedLbrace  (* ValueError: unexpected '{' in field name *)
| ExpectedRbrace    (* ValueError: expected '}' before end of string *)
| IndexError        (* an automatically numbered field, no positional argument *)
| KeyError (name : pystr)
| NotModelled.

Definition kwargs := list (pystr * pystr).

Fixpoint lookup (kw : kwargs) (name : pystr) : option pystr :=
  match kw with
  | [] => None
  | (k, v) :: kw' => if PyStr.eqb k name then Some v else lookup kw' name
  end.

Definition isdigit (c : N) : bool := ((48 <=? c) && (c <=? 57))%N.

(** The object a replacement field names. *)
Definition get_field (kw : kwargs) (name : pystr) : result pystr error :=
  match name with
  | [] => Err IndexError
  | _ =>
      if forallb isdigit name then Err NotModelled
      else match lookup kw name with
           | Some v => Ok v
           | None => Err (KeyError name)
           end
  end.

(** The markup iterator: literal text with the escapes [{{] and [}}], and
    replacement fields [{name}].  The value of a field is a [str] and is
    inserted as it is: it is not scanned for markup. *)
Fixpoint vformat (kw : kwargs) (t : pystr) {struct t} : result pystr error :=
  match t with
  | [] => Ok []
  | c :: r =>
      if N.eqb c rbrace then
        match r with
        | c' :: r' =>
            if N.eqb c' rbrace then rmap (cons rbrace) (vformat kw r')
            else Err SingleRbrace
        | [] => Err SingleRbrace
        end
      else if N.eqb c lbrace then
        match r with
        | [] => Err SingleLbrace
        | c' :: r' =>
            if N.eqb c' lbrace then rmap (cons lbrace) (vformat kw r')
            else parse_field kw [] r
        end
      else rmap (cons c) (vformat kw r)
  end
with parse_field (kw : kwargs) (name : pystr) (t : pystr) {struct t}
  : result pystr error :=
  match t with
  | [] => Err ExpectedRbrace
  | c :: r =>
      if N.eqb c rbrace then
        rbind (get_field kw (rev name))
              (fun v => rmap (app v) (vformat kw r))
      else if N.eqb c lbrace then Err UnexpectedLbrace
      else if (N.eqb c 33 || N.eqb c 58 || N.eqb c 46 || N.eqb c 91)%bool
           then Err NotModelled
      else parse_field kw (c :: name) r
  end.

End Fmt.

(** ** Python values *)

Module PyVal.

Local Set Warnings "-register-all".

(** The objects [json.loads] builds.  A [float] is represented by the text
    given to [float]: its numeric value plays no part in the program. *)
Inductive pyval : Type :=
| PyNone
| PyBool (b : bool)
| PyInt (z : Z)
| PyFloat (text : pystr)
| PyStr (s : pystr)
| PyList (items : list pyval)
| PyDict (items : list (pystr * pyval)).

(** A [dict] with [str] keys keeps its items in insertion order. *)
Definition dict := list (pystr * pyval).

(** [d[k] = v]: an existing key keeps its place. *)
Fixpoint dict_set (d : dict) (k : pystr) (v : pyval) : dict :=
  match d with
  | [] => [(k, v)]
  | (k', v') :: d' =>
      if PyStr.eqb k' k then (k', v) :: d' else (k', v') :: dict_set d' k v
  end.

Fixpoint dict_lookup (d : dict) (k : pystr) : option pyval :=
  match d with
  | [] => None
  | (k', v) :: d' => if PyStr.eqb k' k then Some v else dict_lookup d' k
  end.

(** [k in d] *)
Definition dict_contains (d : dict) (k : pystr) : bool :=
  match dict_lookup d k with Some _ => true | None => false end.

(** [d.get(k, default)] *)
Definition dict_get (d : dict) (k : pystr) (default : pyval) : pyval :=
  match dict_lookup d k with Some v => v | None => default end.

Definition is_dict (v : pyval) : bool :=
  match v with PyDict _ => true | _ => false end.

End PyVal.
Import PyVal.

(** ** [json.loads] *)

(** The decoder of CPython's [json] package ([json/decoder.py],
    [json/scanner.py]) with the default arguments: [strict=True], no hooks,
    [float], [int] and the constants [NaN], [Infinity], [-Infinity].  The
    text still to be read takes the place of the pair [(s, end)].  Where
    the C accelerator and the Python code differ (the digits accepted in a
    [\uXXXX] escape), the accelerator, which CPython uses, is followed. *)

Module Json.

(** The exceptions of [json.loads] that are no [JSONDecodeError]:
    [RecursionError], raised when objects and arrays are nested deeper than
    the interpreter allows, and [ValueError], raised by [int] on a literal
    with more digits than [sys.get_int_max_str_digits()]. *)
Inductive error : Type :=
| RecursionError
| ValueError.

(** Outcome of scanning one value: the value and the text left after it,
    [JSONDecodeError] (its message and position are not modelled; the
    program only logs them), another exception, or a budget of loop
    iterations that was too small. *)
Inductive scan_result : Type :=
| Scanned (v : pyval) (rest : pystr)
| Failed
| Raised (e : error)
| OutOfFuel.

(** [WHITESPACE = re.compile(r'[ \t\n\r]*')] *)
Definition is_ws (c : N) : bool :=
  (N.eqb c 32 || N.eqb c 9 || N.eqb c 10 || N.eqb c 13)%bool.

Fixpoint skip_ws (s : pystr) : pystr :=
  match s with
  | [] => []
  | c :: r => if is_ws c then skip_ws r else s
  end.

Definition hexdigit (c : N) : option N :=
  (if (48 <=? c) && (c <=? 57) then Some (c - 48)
   else if (97 <=? c) && (c <=? 102) then Some (c - 87)
   else if (65 <=? c) && (c <=? 70) then Some (c - 55)
   else None)%N.

Definition hex4 (a b c d : N) : option N :=
  match hexdigit a, hexdigit b, hexdigit c, hexdigit d with
  | Some x, Some y, Some z, Some w => Some (((x * 16 + y) * 16 + z) * 16 + w)%N
  | _, _, _, _ => None
  end.

Definition is_high_surrogate (u : N) : bool := ((55296 <=? u) && (u <=? 56319))%N.
Definition is_low_surrogate (u : N) : bool := ((56320 <=? u) && (u <=? 57343))%N.
Definition join_surrogates (hi lo : N) : N :=
  (65536 + (((hi - 55296) * 1024) + (lo - 56320)))%N.

(** [BACKSLASH]: the one-character escapes. *)
Definition backslash_escape (c : N) : option N :=
  (if c =? 34 then Some 34          (* the quote *)
   else if c =? 92 then Some 92     (* the backslash *)
   else if c =? 47 then Some 47     (* \/ *)
   else if c =? 98 then Some 8      (* \b *)
   else if c =? 102 then Some 12    (* \f *)
   else if c =? 110 then Some 10    (* \n *)
   else if c =? 114 then Some 13    (* \r *)
   else if c =? 116 then Some 9     (* \t *)
   else None)%N.

(** [scanstring(s, end, strict=True)]: [s] starts after the opening quote,
    [acc] holds the decoded characters so far, last first. *)
Fixpoint scanstring (s : pystr) (acc : pystr) {struct s}
  : option (pystr * pystr) :=
  match s with
  | [] => None                                   (* unterminated string *)
  | c :: r =>
      if N.eqb c dquote then Some (rev acc, r)
      else if N.eqb c 92 then
        match r with
        | [] => None                             (* unterminated string *)
        | e :: r1 =>
            if N.eqb e 117 then                  (* \uXXXX *)
              match r1 with
              | h1 :: h2 :: h3 :: h4 :: r2 =>
                  match hex4 h1 h2 h3 h4 with
                  | None => None                 (* invalid \uXXXX escape *)
                  | Some u =>
                      if is_high_surrogate u then
                        match r2 with
                        | b :: e' :: g1 :: g2 :: g3 :: g4 :: r3 =>
                            if (N.eqb b 92 && N.eqb e' 117)%bool then
                              match hex4 g1 g2 g3 g4 with
                              | None => None     (* invalid \uXXXX escape *)
                              | Some u2 =>
                                  if is_low_surrogate u2
                                  then scanstring r3 (join_surrogates u u2 :: acc)
                                  else scanstring r2 (u :: acc)
                              end
                            else scanstring r2 (u :: acc)
                        | _ => scanstring r2 (u :: acc)
                        end
                      else scanstring r2 (u :: acc)
                  end
              | _ => None                        (* invalid \uXXXX escape *)
              end
            else
              match backslash_escape e with
              | Some x => scanstring r1 (x :: acc)
              | None => None                     (* invalid \escape *)
              end
        end
      else if (c <=? 31)%N then None             (* invalid control character *)
      else scanstring r (c :: acc)
  end.

Definition isdigit (c : N) : bool := ((48 <=? c) && (c <=? 57))%N.

(** The longest run of decimal digits at the head of [s], and what follows. *)
Fixpoint span_digits (s : pystr) : pystr * pystr :=
  match s with
  | [] => ([], [])
  | c :: r =>
      if isdigit c then let (ds, rest) := span_digits r in (c :: ds, rest)
      else ([], s)
  end.

(** [NUMBER_RE]: an optional minus sign followed by [0] or by a digit
    [1-9] and any digits (group [integer]); then, optionally, a dot and at
    least one digit (group [frac]); then, optionally, [e] or [E], an optional
    sign and at least one digit (group [exp]).  Each function returns its
    group and the text after it. *)
Definition match_integer (s : pystr) : option (pystr * pystr) :=
  let '(sign, s1) := match s with
                     | c :: r => if N.eqb c 45 then ([c], r) else ([], s)
                     | [] => ([], s)
                     end in
  match s1 with
  | d :: r =>
      if N.eqb d 48 then Some (sign ++ [d], r)
      else if isdigit d then
        let (ds, rest) := span_digits r in Some (sign ++ d :: ds, rest)
      else None
  | [] => None
  end.

Definition match_frac (s : pystr) : pystr * pystr :=
  match s with
  | c :: r =>
      if N.eqb c 46 then
        match span_digits r with
        | ([], _) => ([], s)
        | (ds, rest) => (c :: ds, rest)
        end
      else ([], s)
  | [] => ([], s)
  end.

Definition match_exp (s : pystr) : pystr * pystr :=
  match s with
  | c :: r =>
      if (N.eqb c 101 || N.eqb c 69)%bool then
        let '(sign, r1) := match r with
                           | g :: r' => if (N.eqb g 45 || N.eqb g 43)%bool
                                        then ([g], r') else ([], r)
                           | [] => ([], r)
                           end in
        match span_digits r1 with
        | ([], _) => ([], s)
        | (ds, rest) => (c :: sign ++ ds, rest)
        end
      else ([], s)
  | [] => ([], s)
  end.

Definition match_number (s : pystr) : option (pystr * pystr * pystr * pystr) :=
  match match_integer s with
  | None => None
  | Some (integer, r1) =>
      let (frac, r2) := match_frac r1 in
      let (exp, r3) := match_exp r2 in
      Some (integer, frac, exp, r3)
  end.

(** The number a run of decimal digits denotes. *)
Definition int_of_digits (ds : pystr) : Z :=
  fold_left (fun a c => 10 * a + (Z.of_N c - 48)) ds 0.

(** [int(text)] for the text of the group [integer]: the value, or [None]
    for the [ValueError] of a literal with more than [max_str_digits]
    digits; the value [0] of [max_str_digits] switches the limit off. *)
Definition parse_int (max_str_digits : nat) (text : pystr) : option Z :=
  let digits := match text with
                | c :: r => if N.eqb c 45 then r else text
                | [] => text
                end in
  if (Nat.ltb 0 max_str_digits
      && Nat.ltb max_str_digits (List.length digits))%bool
  then None
  else Some (match text with
             | c :: r => if N.eqb c 45 then - int_of_digits r
                         else int_of_digits text
             | [] => 0
             end).

(** [s[idx:idx + len(w)] == w] and the text after it. *)
Fixpoint startswith (w s : pystr) : option pystr :=
  match w, s with
  | [], _ => Some s
  | x :: w', y :: s' => if N.eqb x y then startswith w' s' else None
  | _ :: _, [] => None
  end.

(** [JSONObject] and [JSONArray] receive the scanner as an argument, as in
    [json/decoder.py]. *)
Section Containers.

Variable scan_once : pystr -> scan_result.

(** The [while True] loop of [JSONObject]; [s] starts after the opening
    quote of a key. *)
Fixpoint object_pairs (fuel : nat) (pairs : dict) (s : pystr) {struct fuel}
  : scan_result :=
  match fuel with
  | O => OutOfFuel
  | S fuel' =>
      match scanstring s [] with
      | None => Failed
      | Some (key, s1) =>
          match skip_ws s1 with
          | c :: s2 =>
              if N.eqb c 58 then                    (* ':' *)
                match scan_once (skip_ws s2) with
                | Scanned value s3 =>
                    let pairs' := dict_set pairs key value in
                    match skip_ws s3 with
                    | d :: s4 =>
                        if N.eqb d rbrace then Scanned (PyDict pairs') s4
                        else if N.eqb d 44 then     (* ',' *)
                          match skip_ws s4 with
                          | q :: s5 =>
                              if N.eqb q dquote
                              then object_pairs fuel' pairs' s5
                              else Failed   (* expecting property name *)
                          | [] => Failed
                          end
                        else Failed         (* expecting ',' delimiter *)
                    | [] => Failed
                    end
                | Failed => Failed            (* expecting value *)
                | Raised e => Raised e
                | OutOfFuel => OutOfFuel
                end
              else Failed                   (* expecting ':' delimiter *)
          | [] => Failed
          end
      end
  end.

(** [JSONObject((s, end), ...)]; [s] starts after the opening brace. *)
Definition JSONObject (fuel : nat) (s : pystr) : scan_result :=
  match skip_ws s with
  | c :: r =>
      if N.eqb c rbrace then Scanned (PyDict []) r
      else if N.eqb c dquote then object_pairs fuel [] r
      else Failed                           (* expecting property name *)
  | [] => Failed
  end.

(** The [while True] loop of [JSONArray]; [s] starts at a value. *)
Fixpoint array_values (fuel : nat) (values : list pyval) (s : pystr)
  {struct fuel} : scan_result :=
  match fuel with
  | O => OutOfFuel
  | S fuel' =>
      match scan_once s with
      | Scanned value s1 =>
          match skip_ws s1 with
          | c :: s2 =>
              if N.eqb c 93 then Scanned (PyList (values ++ [value])) s2
              else if N.eqb c 44 then
                array_values fuel' (values ++ [value]) (skip_ws s2)
              else Failed                   (* expecting ',' delimiter *)
          | [] => Failed
          end
      | Failed => Failed                      (* expecting value *)
      | Raised e => Raised e
      | OutOfFuel => OutOfFuel
      end
  end.

(** [JSONArray((s, end), scan_once)]; [s] starts after the opening
    bracket. *)
Definition JSONArray (fuel : nat) (s : pystr) : scan_result :=
  match skip_ws s with
  | c :: r =>
      if N.eqb c 93 then Scanned (PyList []) r
      else array_values fuel [] (skip_ws s)
  | [] => Failed
  end.

End Containers.

Section Limits.

(** The limit on the digits of an integer literal. *)
Variable max_str_digits : nat.

(** [_scan_once(string, idx)]: [s] is [string[idx:]].  [StopIteration] is
    turned into [JSONDecodeError] by every caller, hence [Failed].
    [depth] is the number of nested objects and arrays the interpreter
    still allows: the scanner enters a recursive call for each of them. *)
Fixpoint scan_once (fuel depth : nat) (s : pystr) {struct fuel} : scan_result :=
  match fuel with
  | O => OutOfFuel
  | S fuel' =>
      match s with
      | [] => Failed
      | nextchar :: r =>
          if N.eqb nextchar dquote then
            match scanstring r [] with
            | Some (text, rest) => Scanned (PyStr text) rest
            | None => Failed
            end
          else if N.eqb nextchar lbrace then
            match depth with
            | O => Raised RecursionError
            | S depth' => JSONObject (scan_once fuel' depth') fuel' r
            end
          else if N.eqb nextchar 91 then
            match depth with
            | O => Raised RecursionError
            | S depth' => JSONArray (scan_once fuel' depth') fuel' r
            end
          else
            match startswith (lit "null") s with
            | Some rest => Scanned PyNone rest
            | None =>
            match startswith (lit "true") s with
            | Some rest => Scanned (PyBool true) rest
            | None =>
            match startswith (lit "false") s with
            | Some rest => Scanned (PyBool false) rest
            | None =>
            match match_number s with
            | Some (integer, frac, exp, rest) =>
                if (falsy frac && falsy exp)%bool
                then match parse_int max_str_digits integer with
                     | Some z => Scanned (PyInt z) rest
                     | None => Raised ValueError
                     end
                else Scanned (PyFloat (integer ++ frac ++ exp)) rest
            | None =>
            match startswith (lit "NaN") s with
            | Some rest => Scanned (PyFloat (lit "NaN")) rest
            | None =>
            match startswith (lit "Infinity") s with
            | Some rest => Scanned (PyFloat (lit "Infinity")) rest
            | None =>
            match startswith (lit "-Infinity") s with
            | Some rest => Scanned (PyFloat (lit "-Infinity")) rest
            | None => Failed
            end end end end end end end
      end
  end.

End Limits.

(** A scanner is adequate below [bound] when, on every text shorter than
    [bound], it finishes and leaves less text than it was given. *)
Definition adequate (scan : pystr -> scan_result) (bound : nat) : Prop :=
  forall s, (List.length s < bound)%nat ->
    scan s <> OutOfFuel /\
    forall v r, scan s = Scanned v r -> (List.length r < List.length s)%nat.

(** A scanner is sound when it leaves less text than it was given, and a
    string it returns is shorter than the text it took. *)
Definition sound (scan : pystr -> scan_result) : Prop :=
  forall s v r, scan s = Scanned v r ->
    (List.length r < List.length s)%nat /\
    forall t, v = PyStr t ->
              (List.length t + List.length r < List.length s)%nat.

(** What [json.loads] does: return an object, raise [JSONDecodeError] or
    raise another exception; [Unfinished] only reports a budget of loop
    iterations that was too small. *)
Inductive outcome : Type :=
| Decoded (obj : pyval)
| JSONDecodeError
| Raises (e : error)
| Unfinished.

(** [JSONDecoder.decode(s)]: leading whitespace, one value, trailing
    whitespace, and nothing else. *)
Definition decode (max_str_digits depth : nat) (s : pystr) : outcome :=
  match scan_once max_str_digits (S (List.length s)) depth (skip_ws s) with
  | Scanned obj rest =>
      match skip_ws rest with
      | [] => Decoded obj
      | _ :: _ => JSONDecodeError           (* extra data *)
      end
  | Failed => JSONDecodeError                 (* expecting value *)
  | Raised e => Raises e
  | OutOfFuel => Unfinished
  end.

(** [json.loads(s)] for a [str] and no keyword argument, in an interpreter
    with the given limits. *)
Definition loads_within (max_str_digits depth : nat) (s : pystr) : outcome :=
  match s with
  | 65279%N :: _ => JSONDecodeError         (* unexpected UTF-8 BOM *)
  | _ => decode max_str_digits depth s
  end.

(** The limits of CPython as it is started: [sys.getrecursionlimit()] and
    [sys.get_int_max_str_digits()].  The depth left to the decoder is the
    recursion limit less the frames in use when it is called, which the
    source does not fix; what is proved below for every text holds for
    every value of the two limits. *)
Definition recursion_limit : nat := 1000.
Definition int_max_str_digits : nat := 4300.

(** [json.loads(s)] *)
Definition loads (s : pystr) : outcome :=
  loads_within int_max_str_digits recursion_limit s.

End Json.

(** ** The program *)

Module App.

(** *** The world the program acts on *)

Inductive level : Type := INFO | WARNING | ERROR.

(** The messages of the [logger] calls, one constructor per call site; the
    argument is what the f-string interpolates. *)
Inductive message : Type :=
| GeneratingResponse                    (* get_gemini_response, on entry *)
| ResponseGenerated                     (* get_gemini_response, success *)
| ErrorGeneratingResponse (e : pystr)   (* get_gemini_response, except *)
| ProcessingPDF (name : pystr)          (* extract_pdf_text, on entry *)
| ExtractedTextEmpty                    (* extract_pdf_text, empty text *)
| ExtractedText (pages : nat)           (* extract_pdf_text, success *)
| ErrorProcessingPDF (e : pystr)        (* extract_pdf_text, except *)
| ParsedJSON                            (* parse_gemini_response, success *)
| NoJSONFound                           (* parse_gemini_response, else *)
| JSONParsingError                      (* parse_gemini_response, except *)
| ErrorDisplayingResults (obj : pyval) (attribute : pystr)
      (* display_results, except: the [AttributeError] of [obj.attribute] *)
| AnalysisCompleted.                    (* main *)

(** What the program writes to the page through [st]. *)
Inductive widget : Type :=
| WarnUploadResume          (* st.warning: please upload a resume PDF file *)
| WarnJobDescription        (* st.warning: please provide a job description *)
| ErrorExtraction           (* st.error: could not extract text from the PDF *)
| ErrorCompletion           (* st.error: failed to get analysis from the model *)
| ResultsHeading            (* the two st.markdown before the results *)
| ErrorAnalyzing            (* st.error: Error analyzing the resume *)
| StWrite (v : pyval)         (* st.write(v) *)
| ResultTabs (results : dict)   (* the four tabs of display_results *)
| EmptyTabs                 (* st.tabs: the four tabs, with nothing in them *)
| ErrorDisplaying (obj : pyval) (attribute : pystr)
                            (* st.error: Error displaying results *)
| Footer.                   (* the two st.markdown after the results *)

Record world : Type := mkWorld {
  log : list (level * message);   (* records emitted by [logger] *)
  requests : list pystr;          (* prompts sent to the completion backend *)
  page : list widget              (* widgets written, oldest first *)
}.

(** *** State monad *)

Definition M (A : Type) : Type := world -> A * world.

Definition ret {A} (a : A) : M A := fun w => (a, w).

Definition bind {A B} (m : M A) (k : A -> M B) : M B :=
  fun w => let (a, w') := m w in k a w'.

Notation "x <- m ;; k" := (bind m (fun x => k))
  (at level 61, m at next level, right associativity).
Notation "m ;; k" := (bind m (fun _ => k))
  (at level 61, right associativity).

Definition logger (l : level) (m : message) : M unit :=
  fun w => (tt, mkWorld (log w ++ [(l, m)]) (requests w) (page w)).

Definition st (x : widget) : M unit :=
  fun w => (tt, mkWorld (log w) (requests w) (page w ++ [x])).

(** What is not a return value: an exception that leaves the function, or
    a budget of loop iterations of [Json.scan_once] that was too small. *)
Inductive exception : Type :=
| FormatError (e : Fmt.error)   (* raised by [str.format] *)
| TypeError                     (* ["error" in x] when [x] is no container *)
| AttributeError                (* [x.get] when [x] is no dict *)
| JsonRaised (e : Json.error)   (* raised by [json.loads], not caught *)
| Unfinished.

(** The response object of the backend: reading [response.text] gives the
    text or raises. *)
Record GenerateContentResponse : Type := mkResponse {
  response_text : result pystr pystr
}.

(** *** The PDF, as PyPDF2 presents it *)

(** [page.extract_text()] returns a [str] or raises. *)
Inductive pdf_page : Type :=
| Text (t : pystr)
| ExtractRaises (e : pystr).

(** [pdf.PdfReader(uploaded_file)] and [reader.pages]: the pages, or an
    exception (corrupt or encrypted file). *)
Inductive pdf_reader : Type :=
| Pages (pages : list pdf_page)
| ReaderRaises (e : pystr).

Record UploadedFile : Type := mkFile {
  name : pystr;
  PdfReader : pdf_reader
}.

(** *** The template of [create_prompt] *)

(** The triple-quoted string of [create_prompt]; the backquote stands for
    the double quote. *)
Definition prompt : pystr := quoted 96 "
    You are an elite Applicant Tracking System (ATS) expert with deep specialization in technical recruitment for fields including 
    software engineering, data science, machine learning, data analysis, big data engineering, cloud computing, 
    and IT roles. You have 15+ years of experience in technical recruiting for top tech companies.
    
    Analyze the provided resume against the job description with extreme precision and provide:
    
    1. A percentage match score between the resume and job description. Be realistic but fair - most candidates don't exceed 85% match.
    2. A detailed, categorized list of important keywords/skills from the job description missing in the resume.
       Categorize them as: Technical Skills, Soft Skills, Experience, Education/Certifications.
    3. A compelling professional summary of the candidate's profile.
    4. 3-5 specific, actionable recommendations to improve the resume for this particular job.
    5. 2-3 strengths of the resume relative to the job description.
    6. A brief explanation of why certain skills/experiences are particularly valuable for this role.
    
    Resume:
    {resume}
    
    Job Description:
    {jd}
    
    Return your analysis in the following JSON format only:
    {{
        `JD Match`: `XX%`,
        `MissingKeywords`: {{
            `Technical Skills`: [`skill1`, `skill2`, ...],
            `Soft Skills`: [`skill1`, `skill2`, ...],
            `Experience`: [`exp1`, `exp2`, ...],
            `Education/Certifications`: [`cert1`, `cert2`, ...]
        }},
        `Profile Summary`: `Compelling summary of the candidate's profile`,
        `Improvement Suggestions`: [`suggestion1`, `suggestion2`, `suggestion3`, ...],
        `Resume Strengths`: [`strength1`, `strength2`, ...],
        `Key Role Requirements`: `Brief explanation of the most critical skills for this role`
    }}
    
    Be thorough but ensure you maintain valid JSON format. Focus on practical, actionable insights that would genuinely help the candidate.
    ".

(** *** The functions of [app.py] *)

(** [create_prompt(resume_text, job_description)]:
    [prompt.format(resume=resume_text, jd=job_description)]. *)
Definition create_prompt (resume_text job_description : pystr)
  : result pystr Fmt.error :=
  Fmt.vformat [(lit "resume", resume_text); (lit "jd", job_description)] prompt.

(** The loop of [extract_pdf_text]: [text += str(page.extract_text())] for
    every page in order; the first exception ends it. *)
Fixpoint read_pages (pages : list pdf_page) (text : pystr)
  : result pystr pystr :=
  match pages with
  | [] => Ok text
  | Text t :: rest => read_pages rest (text ++ t)
  | ExtractRaises e :: _ => Err e
  end.

(** [extract_pdf_text(uploaded_file)] *)
Definition extract_pdf_text (uploaded_file : UploadedFile) : M (option pystr) :=
  logger INFO (ProcessingPDF (name uploaded_file)) ;;
  match PdfReader uploaded_file with
  | ReaderRaises e => logger ERROR (ErrorProcessingPDF e) ;; ret None
  | Pages pages =>
      match read_pages pages [] with
      | Err e => logger ERROR (ErrorProcessingPDF e) ;; ret None
      | Ok text =>
          if falsy (strip text)
          then logger WARNING ExtractedTextEmpty ;; ret None
          else logger INFO (ExtractedText (List.length pages)) ;;
               ret (Some text)
      end
  end.

(** The dicts returned on the two error paths of [parse_gemini_response]. *)
Definition invalid_response_format (response : pystr) : pyval :=
  PyDict [(lit "error", PyStr (lit "Invalid response format"));
          (lit "raw_response", PyStr response)].

Definition failed_to_parse (response : pystr) : pyval :=
  PyDict [(lit "error", PyStr (lit "Failed to parse response"));
          (lit "raw_response", PyStr response)].

(** [parse_gemini_response(response)].  The parameter is rebound to its
    stripped value on the first line, and that value is what the error
    dicts carry. *)
Definition parse_gemini_response (response : pystr)
  : M (result pyval exception) :=
  let response := strip response in
  let start_idx := find lbrace response in
  let end_idx := rfind rbrace response + 1 in
  if ((start_idx >=? 0) && (end_idx >? start_idx))%bool then
    let json_str := slice response start_idx end_idx in
    match Json.loads json_str with
    | Json.Decoded result =>
        logger INFO ParsedJSON ;; ret (Ok result)
    | Json.JSONDecodeError =>
        logger ERROR JSONParsingError ;; ret (Ok (failed_to_parse response))
    | Json.Raises e => ret (Err (JsonRaised e))
    | Json.Unfinished => ret (Err Unfinished)
    end
  else
    logger ERROR NoJSONFound ;; ret (Ok (invalid_response_format response)).

(** ["error" in analysis_results]: a key of a dict, an item of a list, a
    substring of a str; [None] for the [TypeError] of any other object. *)
Definition contains_error (analysis_results : pyval) : option bool :=
  match analysis_results with
  | PyDict d => Some (dict_contains d (lit "error"))
  | PyList items =>
      Some (existsb (fun v => match v with
                              | PyStr s => PyStr.eqb s (lit "error")
                              | _ => false
                              end) items)
  | PyStr s => Some (contains (lit "error") s)
  | _ => None
  end.

(** [analysis_results.get("JD Match", "N/A")] *)
Definition match_percentage (analysis_results : dict) : pyval :=
  dict_get analysis_results (lit "JD Match") (PyStr (lit "N/A")).

(** Whether [match_percentage.replace] exists: only a [str] has it.  It is
    the one call under the [try] of [display_results] that can raise an
    exception its inner handler does not catch. *)
Definition has_replace (match_percentage : pyval) : bool :=
  match match_percentage with
  | PyStr _ => true
  | _ => false
  end.

(** The handler [except Exception as e] of [display_results], for the
    [AttributeError] of [obj.attribute]. *)
Definition display_fallback (analysis_results obj : pyval) (attribute : pystr)
  : M (result unit exception) :=
  logger ERROR (ErrorDisplayingResults obj attribute) ;;
  st (ErrorDisplaying obj attribute) ;;
  st (StWrite (PyStr (lit "Raw data:"))) ;;
  st (StWrite analysis_results) ;;
  ret (Ok tt).

(** [display_results(analysis_results)].  The tabbed display of a result
    that raises nothing is one widget, [ResultTabs]; when the first tab
    raises, the tabs stay empty and the handler runs. *)
Definition display_results (analysis_results : pyval)
  : M (result unit exception) :=
  match contains_error analysis_results with
  | None => ret (Err TypeError)
  | Some true =>
      st ErrorAnalyzing ;;
      st (StWrite (PyStr (lit "Raw response:"))) ;;
      match analysis_results with
      | PyDict d =>
          st (StWrite (dict_get d (lit "raw_response")
                              (PyStr (lit "No response available")))) ;;
          ret (Ok tt)
      | _ => ret (Err AttributeError)
      end
  | Some false =>
      match analysis_results with
      | PyDict d =>
          if has_replace (match_percentage d)
          then st (ResultTabs d) ;; ret (Ok tt)
          else st EmptyTabs ;;
               display_fallback analysis_results (match_percentage d)
                                (lit "replace")
      | _ =>
          st EmptyTabs ;;
          display_fallback analysis_results analysis_results (lit "get")
      end
  end.

(** [not x] for an [Optional[str]]. *)
Definition not_ (x : option pystr) : bool :=
  match x with
  | None => true
  | Some t => falsy t
  end.

Section Backend.

(** The completion backend: given the prompts it received before and the
    new prompt, the response object or the exception raised by
    [genai.GenerativeModel(...).generate_content(...)]. *)
Variable generate_content :
  list pystr -> pystr -> result GenerateContentResponse pystr.

Definition call_backend (input_text : pystr)
  : M (result GenerateContentResponse pystr) :=
  fun w => (generate_content (requests w) input_text,
            mkWorld (log w) (requests w ++ [input_text]) (page w)).

(** [get_gemini_response(input_text)].  The success is logged before
    [response.text] is read. *)
Definition get_gemini_response (input_text : pystr) : M (option pystr) :=
  logger INFO GeneratingResponse ;;
  response <- call_backend input_text ;;
  match response with
  | Ok response =>
      logger INFO ResponseGenerated ;;
      match response_text response with
      | Ok text => ret (Some text)
      | Err e => logger ERROR (ErrorGeneratingResponse e) ;; ret None
      end
  | Err e => logger ERROR (ErrorGeneratingResponse e) ;; ret None
  end.

(** The block of [main] under [if analyze_button:], on the values read
    from the file uploader and the text area. *)
Definition main_analysis (uploaded_file : option UploadedFile)
           (job_description : pystr) : M (result unit exception) :=
  match uploaded_file with
  | None => st WarnUploadResume ;; ret (Ok tt)
  | Some uploaded_file =>
      if falsy job_description then st WarnJobDescription ;; ret (Ok tt)
      else
        resume_text <- extract_pdf_text uploaded_file ;;
        if not_ resume_text then st ErrorExtraction ;; ret (Ok tt)
        else
          let resume_text := match resume_text with
                             | Some t => t
                             | None => []
                             end in
          match create_prompt resume_text job_description with
          | Err e => ret (Err (FormatError e))
          | Ok prompt =>
              response <- get_gemini_response prompt ;;
              if not_ response then st ErrorCompletion ;; ret (Ok tt)
              else
                let response := match response with
                                | Some t => t
                                | None => []
                                end in
                st ResultsHeading ;;
                analysis_results <- parse_gemini_response response ;;
                match analysis_results with
                | Err e => ret (Err e)
                | Ok analysis_results =>
                    displayed <- display_results analysis_results ;;
                    match displayed with
                    | Err e => ret (Err e)
                    | Ok _ =>
                        logger INFO AnalysisCompleted ;;
                        st Footer ;;
                        ret (Ok tt)
                    end
                end
          end
  end.

End Backend.

End App.

(** ** Vocabulary of the properties *)

Module Props.
Import App.

(** The world after one more log record. *)
Definition logged (w : world) (l : level) (m : message) : world :=
  mkWorld (log w ++ [(l, m)]) (requests w) (page w).

(** The test [start_idx >= 0 and end_idx > start_idx] on the stripped
    response, and the substring [response[start_idx:end_idx]]. *)
Definition has_braces (response : pystr) : bool :=
  ((find lbrace response >=? 0)
   && (rfind rbrace response + 1 >? find lbrace response))%bool.

Definition json_str (response : pystr) : pystr :=
  slice response (find lbrace response) (rfind rbrace response + 1).

(** The records only [parse_gemini_response] emits. *)
Definition parser_record (r : level * message) : bool :=
  match snd r with
  | ParsedJSON | NoJSONFound | JSONParsingError => true
  | _ => false
  end.

(** The well-formed payloads a text contains: the slices [text[i:j]] that
    run from an opening to a closing brace and decode to a dict. *)
Definition is_payload (text : pystr) (i j : Z) : bool :=
  (PyStr.eqb (slice text i (i + 1)) [lbrace]
   && PyStr.eqb (slice text (j - 1) j) [rbrace]
   && match Json.loads (slice text i j) with
      | Json.Decoded (PyDict _) => true
      | _ => false
      end)%bool.

Definition payloads (text : pystr) : list (Z * Z) :=
  let bounds := List.map Z.of_nat (seq 0 (S (List.length text))) in
  flat_map (fun i =>
    flat_map (fun j =>
      if ((i <? j) && is_payload text i j)%bool then [(i, j)] else [])
      bounds) bounds.

(** The text before, and after, the first occurrence of [c]. *)
Fixpoint upto (c : N) (s : pystr) : pystr :=
  match s with
  | [] => []
  | x :: r => if N.eqb x c then [] else x :: upto c r
  end.

Fixpoint after (c : N) (s : pystr) : pystr :=
  match s with
  | [] => []
  | x :: r => if N.eqb x c then r else after c r
  end.

(** The three stretches of literal text of the template, around its two
    replacement fields. *)
Definition prompt_head : pystr := upto lbrace prompt.
Definition prompt_middle : pystr := upto lbrace (after rbrace prompt).
Definition prompt_tail : pystr := after rbrace (after rbrace prompt).

(** Literal text with each doubled brace read as one brace. *)
Fixpoint unescape (s : pystr) : pystr :=
  match s with
  | [] => []
  | c :: r =>
      match r with
      | c' :: r' =>
          if (N.eqb c c' && (N.eqb c lbrace || N.eqb c rbrace))%bool
          then c :: unescape r'
          else c :: unescape r
      | [] => [c]
      end
  end.

Definition no_brace (s : pystr) : bool :=
  forallb (fun c => negb (N.eqb c lbrace || N.eqb c rbrace)) s.

(** An empty world. *)
Definition w0 : world := mkWorld [] [] [].

(** End-to-end scenario A. *)
Definition scenario_A_file : UploadedFile :=
  mkFile (lit "resume.pdf") (Pages [Text (lit "Python, SQL, 3 years experience")]).

Definition scenario_A_jd : pystr := lit "Python, SQL, AWS".

Definition scenario_A_reply : pystr :=
  litq "{'JD Match': '70%', 'MissingKeywords': {'Technical Skills': ['AWS']}, 'Profile Summary': '...', 'Improvement Suggestions': ['Add AWS experience'], 'Resume Strengths': ['Strong SQL skills'], 'Key Role Requirements': '...'}".

Definition scenario_A_stub
  : list pystr -> pystr -> result GenerateContentResponse pystr :=
  fun _ _ => Ok (mkResponse (Ok scenario_A_reply)).

Definition scenario_A_result : dict :=
  [(lit "JD Match", PyStr (lit "70%"));
   (lit "MissingKeywords",
      PyDict [(lit "Technical Skills", PyList [PyStr (lit "AWS")])]);
   (lit "Profile Summary", PyStr (lit "..."));
   (lit "Improvement Suggestions", PyList [PyStr (lit "Add AWS experience")]);
   (lit "Resume Strengths", PyList [PyStr (lit "Strong SQL skills")]);
   (lit "Key Role Requirements", PyStr (lit "..."))].

(** End-to-end scenario C: a file the reader cannot open. *)
Definition scenario_C_file : UploadedFile :=
  mkFile (lit "locked.pdf") (ReaderRaises (lit "File has not been decrypted")).

(** A completion backend that is out of quota. *)
Definition failing_backend
  : list pystr -> pystr -> result GenerateContentResponse pystr :=
  fun _ _ => Err (lit "quota exceeded").

(** A reply whose payload is itself a dict with the key [error]. *)
Definition in_band_reply : pystr :=
  litq "{'error': 'Invalid response format', 'raw_response': 'I cannot process this request.'}".

(** A reply that opens five times as many arrays as the recursion limit
    allows to nest, and closes none of them. *)
Definition deep_reply : pystr :=
  litq "{'a':" ++ repeat 91%N (5 * Json.recursion_limit) ++ lit "}".

End Props.
Import Props.

(** ** The rest of the page *)

(** The content of two of the tabs that [ResultTabs] stands for: the
    skills-gap tab and the recommendations tab of [display_results].  A
    widget carries the values its f-string interpolates.  The score tab
    compares a [float] and the profile tab tests the truth value of an
    arbitrary object: of these two only the exception the score tab can
    raise is modelled ([has_replace]). *)

Module Tabs.
Import App.

(** [isinstance(x, list) and x]: the items of a non-empty list. *)
Definition nonempty_list (x : pyval) : option (list pyval) :=
  match x with
  | PyList (v :: l) => Some (v :: l)
  | _ => None
  end.

(** [enumerate(items, start)] *)
Fixpoint enumerate (start : Z) (items : list pyval) : list (Z * pyval) :=
  match items with
  | [] => []
  | x :: r => (start, x) :: enumerate (start + 1) r
  end.

(** The tabs are written and filled: the dict has no key [error], and the
    first block under the [try] does not raise, so that the later blocks
    run. *)
Definition tabs_written (analysis_results : dict) : bool :=
  (negb (dict_contains analysis_results (lit "error"))
   && has_replace (match_percentage analysis_results))%bool.

(** *** [with tab3:] *)

Inductive gap_widget : Type :=
| GapHeading                 (* st.markdown: Skills Gap Analysis *)
| Expander (category : pystr) (count : Z) (col1 col2 : list pyval)
                             (* st.expander with its two columns of cards *)
| KeywordsHeading            (* st.markdown: Missing Keywords *)
| Bullet (keyword : pyval)   (* st.markdown: one keyword of the old format *)
| NoKeywords.                (* st.write: no missing keywords found *)

(** The keys of the dict [categories], in the order of the literal. *)
Definition categories : list pystr :=
  [lit "Technical Skills"; lit "Soft Skills"; lit "Experience";
   lit "Education/Certifications"].

(** [len(skills)] *)
Definition list_len (l : list pyval) : Z := Z.of_nat (List.length l).

(** [half = len(skills) // 2 + len(skills) % 2] *)
Definition half (n : Z) : Z := n / 2 + n mod 2.

(** The expander of one category: [skills[:half]] in the first column,
    [skills[half:]] in the second. *)
Definition expander (category : pystr) (skills : list pyval) : gap_widget :=
  let h := half (list_len skills) in
  Expander category (list_len skills)
           (firstn (Z.to_nat h) skills) (skipn (Z.to_nat h) skills).

(** The body of the loop over [categories.items()]. *)
Definition category_widgets (missing_keywords : dict) (category : pystr)
  : list gap_widget :=
  match nonempty_list (dict_get missing_keywords category (PyList [])) with
  | Some skills => [expander category skills]
  | None => []
  end.

(** The block [with tab3:], when it runs. *)
Definition skills_gap_block (analysis_results : dict) : list gap_widget :=
  match dict_get analysis_results (lit "MissingKeywords") (PyDict []) with
  | PyDict (item :: items) =>
      GapHeading :: flat_map (category_widgets (item :: items)) categories
  | PyList (keyword :: keywords) =>
      KeywordsHeading :: List.map Bullet (keyword :: keywords)
  | _ => [NoKeywords]
  end.

(** What the skills-gap tab holds after [display_results]. *)
Definition skills_gap_tab (analysis_results : dict) : list gap_widget :=
  if tabs_written analysis_results then skills_gap_block analysis_results
  else [].

(** *** [with tab4:] *)

Inductive advice_widget : Type :=
| AdviceHeading                            (* Actionable Recommendations *)
| AdviceCard (i : Z) (suggestion : pyval)  (* the card [{i}. {suggestion}] *)
| NextStepsHeading                         (* Next Steps *)
| NextStepsList.                           (* the five fixed steps *)

(** The block [with tab4:], when it runs. *)
Definition recommendations_block (analysis_results : dict)
  : list advice_widget :=
  match nonempty_list (dict_get analysis_results
                                (lit "Improvement Suggestions") (PyList [])) with
  | Some suggestions =>
      AdviceHeading
        :: List.map (fun p => AdviceCard (fst p) (snd p)) (enumerate 1 suggestions)
        ++ [NextStepsHeading; NextStepsList]
  | None => []
  end.

(** What the recommendations tab holds after [display_results]. *)
Definition recommendations_tab (analysis_results : dict) : list advice_widget :=
  if tabs_written analysis_results then recommendations_block analysis_results
  else [].

End Tabs.

(** ** Vocabulary of the further properties *)

Module Outcome.
Import App.

(** The text the program sends for a resume and a job description. *)
Definition prompt_for (resume_text job_description : pystr) : pystr :=
  prompt_head ++ resume_text ++ prompt_middle ++ job_description
  ++ unescape prompt_tail.

(** What [display_results] writes for a dict, and what it logs. *)
Definition shown (d : dict) : list widget :=
  if dict_contains d (lit "error") then
    [ErrorAnalyzing;
     StWrite (PyStr (lit "Raw response:"));
     StWrite (dict_get d (lit "raw_response")
                       (PyStr (lit "No response available")))]
  else if has_replace (match_percentage d) then [ResultTabs d]
  else [EmptyTabs;
        ErrorDisplaying (match_percentage d) (lit "replace");
        StWrite (PyStr (lit "Raw data:"));
        StWrite (PyDict d)].

Definition display_records (d : dict) : list (level * message) :=
  if (dict_contains d (lit "error") || has_replace (match_percentage d))%bool
  then []
  else [(ERROR, ErrorDisplayingResults (match_percentage d) (lit "replace"))].

(** The world at the end of a run that reached the parser and whose parser
    returned: [w] is the world after the completion, [record] the record
    of the parser, [d] the dict it returned. *)
Definition finished (w : world) (record : level * message) (d : dict) : world :=
  mkWorld (log w ++ record :: display_records d ++ [(INFO, AnalysisCompleted)])
          (requests w)
          (page w ++ ResultsHeading :: shown d ++ [Footer]).

(** The requests of one run of the analysis block. *)
Definition requests_sent (uploaded_file : option UploadedFile)
           (job_description : pystr) (w : world) : list pystr :=
  match uploaded_file with
  | None => []
  | Some uploaded_file =>
      if falsy job_description then []
      else match fst (extract_pdf_text uploaded_file w) with
           | Some resume_text => [prompt_for resume_text job_description]
           | None => []
           end
  end.

(** End-to-end scenario B: the backend declines in plain words. *)
Definition scenario_B_stub
  : list pystr -> pystr -> result GenerateContentResponse pystr :=
  fun _ _ => Ok (mkResponse (Ok (lit "I cannot process this request."))).


(** A backend whose response object has no readable text. *)
Definition blocked_backend
  : list pystr -> pystr -> result GenerateContentResponse pystr :=
  fun _ _ => Ok (mkResponse (Err (lit "response.text requires a valid Part"))).

(** A backend whose reply gives the score as a number. *)
Definition numeric_backend
  : list pystr -> pystr -> result GenerateContentResponse pystr :=
  fun _ _ => Ok (mkResponse (Ok (litq "{'JD Match': 70}"))).

(** A backend whose response has an empty text. *)
Definition silent_backend
  : list pystr -> pystr -> result GenerateContentResponse pystr :=
  fun _ _ => Ok (mkResponse (Ok [])).

End Outcome.

(** * Properties *)

Import App.

(** ** [json.loads] always finishes *)

Module JsonFacts.
Import Json.

#[local] Arguments N.eqb : simpl never.
#[local] Arguments N.leb : simpl never.
#[local] Arguments hex4 : simpl never.
#[local] Arguments backslash_escape : simpl never.
#[local] Arguments is_high_surrogate : simpl never.
#[local] Arguments is_low_surrogate : simpl never.
#[local] Arguments join_surrogates : simpl never.
#[local] Arguments isdigit : simpl never.
#[local] Arguments is_ws : simpl never.

Lemma skip_ws_length (s : pystr) :
  (List.length (skip_ws s) <= List.length s)%nat.
Proof.
  induction s as [|c r IH]; simpl; [lia|].
  destruct (is_ws c); simpl; lia.
Qed.

(** [scanstring] consumes at least the closing quote. *)
Lemma scanstring_shorter_le (n : nat) :
  forall s acc t r, (List.length s <= n)%nat ->
    scanstring s acc = Some (t, r) -> (List.length r < List.length s)%nat.
Proof.
  induction n as [|n IH]; intros s acc t r Hn H.
  - destruct s; simpl in *; [discriminate | lia].
  - destruct s as [|c s]; simpl in H; [discriminate|].
    destruct (N.eqb c dquote). { inversion H; subst; simpl; lia. }
    destruct (N.eqb c 92).
    2:{ destruct (c <=? 31)%N; [discriminate|]. apply IH in H; simpl in *; lia. }
    destruct s as [|e r1]; [discriminate|].
    destruct (N.eqb e 117).
    2:{ destruct (backslash_escape e); [|discriminate].
        apply IH in H; simpl in *; lia. }
    destruct r1 as [|h1 [|h2 [|h3 [|h4 r2]]]]; try discriminate.
    destruct (hex4 h1 h2 h3 h4) as [u|]; [|discriminate].
    assert (Hcases :
      scanstring r2 (u :: acc) = Some (t, r) \/
      exists b e' g1 g2 g3 g4 r3 x,
        r2 = b :: e' :: g1 :: g2 :: g3 :: g4 :: r3 /\
        scanstring r3 (x :: acc) = Some (t, r)).
    { destruct (is_high_surrogate u); [|left; exact H].
      destruct r2 as [|b [|e' [|g1 [|g2 [|g3 [|g4 r3]]]]]];
        try (left; exact H).
      destruct ((b =? 92)%N && (e' =? 117)%N)%bool; [|left; exact H].
      destruct (hex4 g1 g2 g3 g4) as [u2|]; [|discriminate].
      destruct (is_low_surrogate u2); [|left; exact H].
      right. repeat eexists. exact H. }
    destruct Hcases as [H'|(b & e' & g1 & g2 & g3 & g4 & r3 & x & -> & H')];
      apply IH in H'; simpl in *; lia.
Qed.

Lemma scanstring_shorter (s acc t r : pystr) :
  scanstring s acc = Some (t, r) -> (List.length r < List.length s)%nat.
Proof. apply (scanstring_shorter_le (List.length s)); lia. Qed.

Lemma span_digits_length (s : pystr) :
  (List.length (snd (span_digits s)) <= List.length s)%nat.
Proof.
  induction s as [|c r IH]; simpl; [lia|].
  destruct (isdigit c); simpl; [|lia].
  destruct (span_digits r); simpl in *; lia.
Qed.

Lemma match_digits_shorter (sign s i r : pystr) :
  match s with
  | d :: r0 =>
      if N.eqb d 48 then Some (sign ++ [d], r0)
      else if isdigit d then
        let (ds, rest) := span_digits r0 in Some (sign ++ d :: ds, rest)
      else None
  | [] => None
  end = Some (i, r) ->
  (List.length r < List.length s)%nat.
Proof.
  destruct s as [|d r0]; [discriminate|].
  destruct (N.eqb d 48); [intros H; inversion H; subst; simpl; lia|].
  destruct (isdigit d); [|discriminate].
  pose proof (span_digits_length r0) as L.
  destruct (span_digits r0); intros H; inversion H; subst; simpl in *; lia.
Qed.

Lemma match_integer_shorter (s i r : pystr) :
  match_integer s = Some (i, r) -> (List.length r < List.length s)%nat.
Proof.
  unfold match_integer.
  destruct s as [|c s0]; [discriminate|].
  destruct (N.eqb c 45); intros H.
  - apply (match_digits_shorter [c] s0) in H. simpl; lia.
  - apply (match_digits_shorter [] (c :: s0)) in H. exact H.
Qed.

Lemma match_frac_length (s : pystr) :
  (List.length (snd (match_frac s)) <= List.length s)%nat.
Proof.
  unfold match_frac. destruct s as [|c r]; simpl; [lia|].
  destruct (N.eqb c 46); simpl; [|lia].
  pose proof (span_digits_length r) as L.
  destruct (span_digits r) as [[|d ds] rest]; simpl in *; lia.
Qed.

Lemma match_exp_length (s : pystr) :
  (List.length (snd (match_exp s)) <= List.length s)%nat.
Proof.
  unfold match_exp. destruct s as [|c r]; simpl; [lia|].
  destruct (N.eqb c 101 || N.eqb c 69)%bool; simpl; [|lia].
  destruct r as [|g r']; simpl; [lia|].
  destruct (N.eqb g 45 || N.eqb g 43)%bool.
  - pose proof (span_digits_length r') as L.
    destruct (span_digits r') as [[|d ds] rest]; simpl in *; lia.
  - pose proof (span_digits_length (g :: r')) as L.
    destruct (span_digits (g :: r')) as [[|d ds] rest]; simpl in *; lia.
Qed.

Lemma match_number_shorter (s i f e r : pystr) :
  match_number s = Some (i, f, e, r) -> (List.length r < List.length s)%nat.
Proof.
  unfold match_number.
  destruct (match_integer s) as [[i' r1]|] eqn:Hi; [|discriminate].
  apply match_integer_shorter in Hi.
  pose proof (match_frac_length r1) as Lf.
  destruct (match_frac r1) as [f' r2].
  pose proof (match_exp_length r2) as Le.
  destruct (match_exp r2) as [e' r3].
  intros H; inversion H; subst; simpl in *; lia.
Qed.

Lemma startswith_shorter (w s r : pystr) :
  w <> [] -> startswith w s = Some r -> (List.length r < List.length s)%nat.
Proof.
  assert (G : forall u s r, startswith u s = Some r ->
                            (List.length r <= List.length s)%nat).
  { intros u. induction u as [|x w' IH]; intros s0 r0; simpl.
    - intros H; inversion H; lia.
    - destruct s0 as [|y s']; [discriminate|].
      destruct (N.eqb x y); [|discriminate].
      intros H; apply IH in H; simpl; lia. }
  destruct w as [|x w']; [congruence|]. intros _. simpl.
  destruct s as [|y s']; [discriminate|].
  destruct (N.eqb x y); [|discriminate].
  intros H; apply G in H; simpl; lia.
Qed.

Section ContainerFacts.

Variable scan : pystr -> scan_result.
Variable bound : nat.
Hypothesis scan_adequate : adequate scan bound.

Lemma object_pairs_adequate (fuel : nat) :
  forall pairs s,
    (List.length s < fuel)%nat -> (List.length s <= bound)%nat ->
    object_pairs scan fuel pairs s <> OutOfFuel /\
    forall v r, object_pairs scan fuel pairs s = Scanned v r ->
                (List.length r < List.length s)%nat.
Proof.
  induction fuel as [|fuel IH]; intros pairs s Hf Hb; [lia|].
  simpl.
  destruct (scanstring s []) as [[key s1]|] eqn:Hk;
    [|split; [discriminate | intros; discriminate]].
  apply scanstring_shorter in Hk.
  pose proof (skip_ws_length s1) as L1.
  destruct (skip_ws s1) as [|c s2];
    [split; [discriminate | intros; discriminate]|].
  destruct (N.eqb c 58);
    [|split; [discriminate | intros; discriminate]].
  pose proof (skip_ws_length s2) as L2.
  destruct (scan_adequate (skip_ws s2)) as [Hne Hsh];
    [simpl in *; lia|].
  destruct (scan (skip_ws s2)) as [value s3| |e|];
    [|split; [discriminate | intros; discriminate]
     |split; [discriminate | intros; discriminate]|congruence].
  specialize (Hsh value s3 eq_refl).
  pose proof (skip_ws_length s3) as L3.
  destruct (skip_ws s3) as [|d s4];
    [split; [discriminate | intros; discriminate]|].
  destruct (N.eqb d rbrace).
  { split; [discriminate|]. intros v r H; inversion H; subst.
    simpl in *; lia. }
  destruct (N.eqb d 44);
    [|split; [discriminate | intros; discriminate]].
  pose proof (skip_ws_length s4) as L4.
  destruct (skip_ws s4) as [|q s5];
    [split; [discriminate | intros; discriminate]|].
  destruct (N.eqb q dquote);
    [|split; [discriminate | intros; discriminate]].
  destruct (IH (dict_set pairs key value) s5) as [Hne' Hsh'];
    [simpl in *; lia | simpl in *; lia |].
  split; [exact Hne'|].
  intros v r H. apply Hsh' in H. simpl in *; lia.
Qed.

Lemma object_pairs_dict (fuel : nat) :
  forall pairs s v r,
    object_pairs scan fuel pairs s = Scanned v r -> exists d, v = PyDict d.
Proof.
  induction fuel as [|fuel IH]; intros pairs s v r; simpl; [discriminate|].
  destruct (scanstring s []) as [[key s1]|]; [|discriminate].
  destruct (skip_ws s1) as [|c s2]; [discriminate|].
  destruct (N.eqb c 58); [|discriminate].
  destruct (scan (skip_ws s2)) as [value s3| |e|]; try discriminate.
  destruct (skip_ws s3) as [|d s4]; [discriminate|].
  destruct (N.eqb d rbrace).
  { intros H; inversion H; subst. eexists; reflexivity. }
  destruct (N.eqb d 44); [|discriminate].
  destruct (skip_ws s4) as [|q s5]; [discriminate|].
  destruct (N.eqb q dquote); [|discriminate].
  apply IH.
Qed.

Lemma JSONObject_adequate (fuel : nat) (s : pystr) :
  (List.length s < fuel)%nat -> (List.length s <= bound)%nat ->
  JSONObject scan fuel s <> OutOfFuel /\
  forall v r, JSONObject scan fuel s = Scanned v r ->
              (List.length r <= List.length s)%nat.
Proof.
  intros Hf Hb. unfold JSONObject.
  pose proof (skip_ws_length s) as L.
  destruct (skip_ws s) as [|c r0];
    [split; [discriminate | intros; discriminate]|].
  destruct (N.eqb c rbrace).
  { split; [discriminate|]. intros v r H; inversion H; subst.
    simpl in *; lia. }
  destruct (N.eqb c dquote);
    [|split; [discriminate | intros; discriminate]].
  destruct (object_pairs_adequate fuel [] r0) as [Hne Hsh];
    [simpl in *; lia | simpl in *; lia |].
  split; [exact Hne|].
  intros v r H. apply Hsh in H. simpl in *; lia.
Qed.

Lemma JSONObject_dict (fuel : nat) (s : pystr) (v : pyval) (r : pystr) :
  JSONObject scan fuel s = Scanned v r -> exists d, v = PyDict d.
Proof.
  unfold JSONObject.
  destruct (skip_ws s) as [|c r0]; [discriminate|].
  destruct (N.eqb c rbrace).
  { intros H; inversion H; subst. eexists; reflexivity. }
  destruct (N.eqb c dquote); [|discriminate].
  apply object_pairs_dict.
Qed.

Lemma array_values_adequate (fuel : nat) :
  forall values s,
    (List.length s < fuel)%nat -> (List.length s < bound)%nat ->
    array_values scan fuel values s <> OutOfFuel /\
    forall v r, array_values scan fuel values s = Scanned v r ->
                (List.length r < List.length s)%nat.
Proof.
  induction fuel as [|fuel IH]; intros values s Hf Hb; [lia|].
  simpl.
  destruct (scan_adequate s Hb) as [Hne Hsh].
  destruct (scan s) as [value s1| |e|];
    [|split; [discriminate | intros; discriminate]
     |split; [discriminate | intros; discriminate]|congruence].
  specialize (Hsh value s1 eq_refl).
  pose proof (skip_ws_length s1) as L1.
  destruct (skip_ws s1) as [|c s2];
    [split; [discriminate | intros; discriminate]|].
  destruct (N.eqb c 93).
  { split; [discriminate|]. intros v r H; inversion H; subst.
    simpl in *; lia. }
  destruct (N.eqb c 44);
    [|split; [discriminate | intros; discriminate]].
  pose proof (skip_ws_length s2) as L2.
  destruct (IH (values ++ [value]) (skip_ws s2)) as [Hne' Hsh'];
    [simpl in *; lia | simpl in *; lia |].
  split; [exact Hne'|].
  intros v r H. apply Hsh' in H. simpl in *; lia.
Qed.

Lemma JSONArray_adequate (fuel : nat) (s : pystr) :
  (List.length s < fuel)%nat -> (List.length s < bound)%nat ->
  JSONArray scan fuel s <> OutOfFuel /\
  forall v r, JSONArray scan fuel s = Scanned v r ->
              (List.length r <= List.length s)%nat.
Proof.
  intros Hf Hb. unfold JSONArray.
  pose proof (skip_ws_length s) as L.
  destruct (skip_ws s) as [|c r0] eqn:E;
    [split; [discriminate | intros; discriminate]|].
  destruct (N.eqb c 93).
  { split; [discriminate|]. intros v r H; inversion H; subst.
    simpl in *; lia. }
  destruct (array_values_adequate fuel [] (c :: r0)) as [Hne Hsh];
    [simpl in *; lia | simpl in *; lia |].
  split; [exact Hne|].
  intros v r H. apply Hsh in H. simpl in *; lia.
Qed.

End ContainerFacts.

#[local] Arguments startswith : simpl never.
#[local] Arguments match_number : simpl never.

(** With a budget above the length of the text, [scan_once] finishes,
    whatever the limits of the interpreter. *)
Lemma scan_once_adequate (max_str_digits fuel : nat) :
  forall depth, adequate (scan_once max_str_digits fuel depth) fuel.
Proof.
  induction fuel as [|fuel IH]; intros depth s Hs; [lia|].
  destruct s as [|c r]; simpl; [split; [discriminate | intros; discriminate]|].
  destruct (N.eqb c dquote).
  { destruct (scanstring r []) as [[text rest]|] eqn:Hk;
      [|split; [discriminate | intros; discriminate]].
    apply scanstring_shorter in Hk.
    split; [discriminate|]. intros v r' H; inversion H; subst. simpl; lia. }
  destruct (N.eqb c lbrace).
  { destruct depth as [|depth];
      [split; [discriminate | intros; discriminate]|].
    destruct (JSONObject_adequate _ _ (IH depth) fuel r) as [Hne Hsh];
      [simpl in *; lia | simpl in *; lia |].
    split; [exact Hne|]. intros v r' H. apply Hsh in H. simpl; lia. }
  destruct (N.eqb c 91).
  { destruct depth as [|depth];
      [split; [discriminate | intros; discriminate]|].
    destruct (JSONArray_adequate _ _ (IH depth) fuel r) as [Hne Hsh];
      [simpl in *; lia | simpl in *; lia |].
    split; [exact Hne|]. intros v r' H. apply Hsh in H. simpl; lia. }
  repeat
    match goal with
    | |- context [startswith ?w (c :: r)] =>
        let E := fresh "E" in
        destruct (startswith w (c :: r)) eqn:E;
        [ apply startswith_shorter in E; [|discriminate];
          split; [discriminate|];
          intros v r' H; inversion H; subst; exact E | ]
    | |- context [match_number (c :: r)] =>
        let E := fresh "E" in
        destruct (match_number (c :: r)) as [[[[i f] e] rest]|] eqn:E;
        [ apply match_number_shorter in E;
          split;
          [ destruct (falsy f && falsy e)%bool;
            [destruct (parse_int max_str_digits i)|]; discriminate |];
          intros v r' H;
          destruct (falsy f && falsy e)%bool;
          [destruct (parse_int max_str_digits i)|];
          inversion H; subst; exact E | ]
    end.
  split; [discriminate | intros; discriminate].
Qed.

Lemma decode_finishes (max_str_digits depth : nat) (s : pystr) :
  decode max_str_digits depth s <> Unfinished.
Proof.
  unfold decode.
  pose proof (skip_ws_length s) as L.
  destruct (scan_once_adequate max_str_digits (S (List.length s)) depth
              (skip_ws s)) as [Hne _]; [lia|].
  destruct (scan_once max_str_digits (S (List.length s)) depth (skip_ws s))
    as [obj rest| |e|];
    [destruct (skip_ws rest); discriminate | discriminate | discriminate
    | congruence].
Qed.

Lemma loads_within_finishes (max_str_digits depth : nat) (s : pystr) :
  loads_within max_str_digits depth s <> Unfinished.
Proof.
  unfold loads_within.
  destruct s as [|c r]; [apply decode_finishes|].
  destruct c as [|p]; [apply decode_finishes|].
  repeat (destruct p as [p|p|]; try apply decode_finishes); discriminate.
Qed.

(** [json.loads] returns an object or raises. *)
Lemma loads_finishes (s : pystr) : loads s <> Unfinished.
Proof. apply loads_within_finishes. Qed.

(** What [json.loads] does on a text that starts with an opening brace. *)
Lemma loads_within_brace (max_str_digits depth : nat) (r : pystr) :
  loads_within max_str_digits depth (lbrace :: r) =
  match depth with
  | O => Raises RecursionError
  | S depth' =>
      match JSONObject (scan_once max_str_digits (S (List.length r)) depth')
                       (S (List.length r)) r with
      | Scanned obj rest =>
          match skip_ws rest with
          | [] => Decoded obj
          | _ :: _ => JSONDecodeError
          end
      | Failed => JSONDecodeError
      | Raised e => Raises e
      | OutOfFuel => Unfinished
      end
  end.
Proof. destruct depth; reflexivity. Qed.

(** A text that starts with an opening brace decodes to a dict, or not at
    all. *)
Lemma loads_brace_dict (r : pystr) (v : pyval) :
  loads (lbrace :: r) = Decoded v -> exists d, v = PyDict d.
Proof.
  unfold loads. rewrite loads_within_brace.
  destruct recursion_limit as [|depth]; [discriminate|].
  destruct (JSONObject _ _ r) as [obj rest| |e|] eqn:E; try discriminate.
  apply JSONObject_dict in E. destruct E as [d ->].
  destruct (skip_ws rest); [|discriminate].
  intros H; inversion H; subst. exists d; reflexivity.
Qed.

(** *** The strings of a decoded object are shorter than its text *)

Lemma dict_set_lookup (d : dict) (k q : pystr) (v x : pyval) :
  dict_lookup (dict_set d k v) q = Some x ->
  x = v \/ dict_lookup d q = Some x.
Proof.
  induction d as [|[k' v'] d IH]; simpl.
  - destruct (PyStr.eqb k q); [|discriminate].
    intros H; inversion H; subst. left. reflexivity.
  - destruct (PyStr.eqb k' k) eqn:E; simpl.
    + destruct (PyStr.eqb k' q).
      * intros H; inversion H; subst. left. reflexivity.
      * intros H. right. exact H.
    + destruct (PyStr.eqb k' q).
      * intros H. right. exact H.
      * exact IH.
Qed.

(** [scanstring] reads more characters than it returns. *)
Lemma scanstring_size_le (n : nat) :
  forall s acc t r, (List.length s <= n)%nat ->
    scanstring s acc = Some (t, r) ->
    (List.length t + List.length r < List.length s + List.length acc)%nat.
Proof.
  induction n as [|n IH]; intros s acc t r Hn H.
  - destruct s; simpl in *; [discriminate | lia].
  - destruct s as [|c s]; simpl in H; [discriminate|].
    destruct (N.eqb c dquote).
    { inversion H; subst. rewrite length_rev. simpl; lia. }
    destruct (N.eqb c 92).
    2:{ destruct (c <=? 31)%N; [discriminate|]. apply IH in H; simpl in *; lia. }
    destruct s as [|e r1]; [discriminate|].
    destruct (N.eqb e 117).
    2:{ destruct (backslash_escape e); [|discriminate].
        apply IH in H; simpl in *; lia. }
    destruct r1 as [|h1 [|h2 [|h3 [|h4 r2]]]]; try discriminate.
    destruct (hex4 h1 h2 h3 h4) as [u|]; [|discriminate].
    assert (Hcases :
      scanstring r2 (u :: acc) = Some (t, r) \/
      exists b e' g1 g2 g3 g4 r3 x,
        r2 = b :: e' :: g1 :: g2 :: g3 :: g4 :: r3 /\
        scanstring r3 (x :: acc) = Some (t, r)).
    { destruct (is_high_surrogate u); [|left; exact H].
      destruct r2 as [|b [|e' [|g1 [|g2 [|g3 [|g4 r3]]]]]];
        try (left; exact H).
      destruct ((b =? 92)%N && (e' =? 117)%N)%bool; [|left; exact H].
      destruct (hex4 g1 g2 g3 g4) as [u2|]; [|discriminate].
      destruct (is_low_surrogate u2); [|left; exact H].
      right. repeat eexists. exact H. }
    destruct Hcases as [H'|(b & e' & g1 & g2 & g3 & g4 & r3 & x & -> & H')];
      apply IH in H'; simpl in *; lia.
Qed.

Lemma scanstring_size (s t r : pystr) :
  scanstring s [] = Some (t, r) ->
  (List.length t + List.length r < List.length s)%nat.
Proof.
  intros H. apply (scanstring_size_le (List.length s)) in H; simpl in *; lia.
Qed.

Section ContainerSizes.

Variable scan : pystr -> scan_result.
Hypothesis scan_sound : sound scan.

Lemma object_pairs_sound (fuel : nat) :
  forall pairs s v r,
    object_pairs scan fuel pairs s = Scanned v r ->
    (List.length r < List.length s)%nat /\
    exists d, v = PyDict d /\
      forall k t, dict_lookup d k = Some (PyStr t) ->
        dict_lookup pairs k = Some (PyStr t) \/
        (List.length t + List.length r < List.length s)%nat.
Proof.
  induction fuel as [|fuel IH]; intros pairs s v r; simpl; [discriminate|].
  destruct (scanstring s []) as [[key s1]|] eqn:Hk; [|discriminate].
  apply scanstring_shorter in Hk.
  pose proof (skip_ws_length s1) as L1.
  destruct (skip_ws s1) as [|c s2]; [discriminate|].
  destruct (N.eqb c 58); [|discriminate].
  pose proof (skip_ws_length s2) as L2.
  destruct (scan (skip_ws s2)) as [value s3| |e|] eqn:Hv; try discriminate.
  destruct (scan_sound _ _ _ Hv) as [Hsh Hstr].
  pose proof (skip_ws_length s3) as L3.
  destruct (skip_ws s3) as [|d s4]; [discriminate|].
  destruct (N.eqb d rbrace).
  { intros H; inversion H; subst. split; [simpl in *; lia|].
    eexists. split; [reflexivity|]. intros k t Hl.
    apply dict_set_lookup in Hl. destruct Hl as [Hl|Hl]; [|left; exact Hl].
    right. symmetry in Hl. specialize (Hstr t Hl). simpl in *; lia. }
  destruct (N.eqb d 44); [|discriminate].
  pose proof (skip_ws_length s4) as L4.
  destruct (skip_ws s4) as [|q s5]; [discriminate|].
  destruct (N.eqb q dquote); [|discriminate].
  intros H. apply IH in H. destruct H as [Hr (d' & -> & Hd')].
  split; [simpl in *; lia|].
  exists d'. split; [reflexivity|]. intros k t Hl.
  destruct (Hd' k t Hl) as [Hp|Hp]; [|right; simpl in *; lia].
  apply dict_set_lookup in Hp. destruct Hp as [Hp|Hp]; [|left; exact Hp].
  right. symmetry in Hp. specialize (Hstr t Hp). simpl in *; lia.
Qed.

Lemma JSONObject_sound (fuel : nat) (s : pystr) (v : pyval) (r : pystr) :
  JSONObject scan fuel s = Scanned v r ->
  (List.length r < List.length s)%nat /\
  exists d, v = PyDict d /\
    forall k t, dict_lookup d k = Some (PyStr t) ->
                (List.length t + List.length r < List.length s)%nat.
Proof.
  unfold JSONObject.
  pose proof (skip_ws_length s) as L.
  destruct (skip_ws s) as [|c r0]; [discriminate|].
  destruct (N.eqb c rbrace).
  { intros H; inversion H; subst. split; [simpl in *; lia|].
    exists []. split; [reflexivity|]. intros k t Hl. discriminate Hl. }
  destruct (N.eqb c dquote); [|discriminate].
  intros H. apply object_pairs_sound in H.
  destruct H as [Hr (d & -> & Hd)].
  split; [simpl in *; lia|].
  exists d. split; [reflexivity|]. intros k t Hl.
  destruct (Hd k t Hl) as [Hp|Hp]; [discriminate Hp | simpl in *; lia].
Qed.

Lemma array_values_sound (fuel : nat) :
  forall values s v r,
    array_values scan fuel values s = Scanned v r ->
    (List.length r < List.length s)%nat /\ exists items, v = PyList items.
Proof.
  induction fuel as [|fuel IH]; intros values s v r; simpl; [discriminate|].
  destruct (scan s) as [value s1| |e|] eqn:Hv; try discriminate.
  destruct (scan_sound _ _ _ Hv) as [Hsh _].
  pose proof (skip_ws_length s1) as L1.
  destruct (skip_ws s1) as [|c s2]; [discriminate|].
  destruct (N.eqb c 93).
  { intros H; inversion H; subst. split; [simpl in *; lia|].
    eexists. reflexivity. }
  destruct (N.eqb c 44); [|discriminate].
  pose proof (skip_ws_length s2) as L2.
  intros H. apply IH in H. destruct H as [Hr Hl].
  split; [simpl in *; lia | exact Hl].
Qed.

Lemma JSONArray_sound (fuel : nat) (s : pystr) (v : pyval) (r : pystr) :
  JSONArray scan fuel s = Scanned v r ->
  (List.length r < List.length s)%nat /\ exists items, v = PyList items.
Proof.
  unfold JSONArray.
  pose proof (skip_ws_length s) as L.
  destruct (skip_ws s) as [|c r0] eqn:E; [discriminate|].
  destruct (N.eqb c 93).
  { intros H; inversion H; subst. split; [simpl in *; lia|].
    eexists. reflexivity. }
  intros H. apply array_values_sound in H. destruct H as [Hr Hl].
  split; [simpl in *; lia | exact Hl].
Qed.

End ContainerSizes.

Lemma scan_once_sound (max_str_digits fuel : nat) :
  forall depth, sound (scan_once max_str_digits fuel depth).
Proof.
  induction fuel as [|fuel IH]; intros depth s v r; [discriminate|].
  destruct s as [|c s']; simpl; [discriminate|].
  destruct (N.eqb c dquote).
  { destruct (scanstring s' []) as [[text rest]|] eqn:Hk; [|discriminate].
    apply scanstring_size in Hk.
    intros H; inversion H; subst. split; [simpl; lia|].
    intros t Ht. inversion Ht; subst. simpl; lia. }
  destruct (N.eqb c lbrace).
  { destruct depth as [|depth]; [discriminate|].
    intros H. apply (JSONObject_sound _ (IH depth)) in H.
    destruct H as [Hr (d & -> & _)].
    split; [simpl; lia | intros t Ht; discriminate Ht]. }
  destruct (N.eqb c 91).
  { destruct depth as [|depth]; [discriminate|].
    intros H. apply (JSONArray_sound _ (IH depth)) in H.
    destruct H as [Hr (items & ->)].
    split; [simpl; lia | intros t Ht; discriminate Ht]. }
  repeat
    match goal with
    | |- context [startswith ?w (c :: s')] =>
        let E := fresh "E" in
        destruct (startswith w (c :: s')) eqn:E;
        [ apply startswith_shorter in E; [|discriminate];
          intros H; inversion H; subst;
          (split; [exact E | intros t Ht; discriminate Ht]) | ]
    | |- context [match_number (c :: s')] =>
        let E := fresh "E" in
        destruct (match_number (c :: s')) as [[[[i f] e] rest]|] eqn:E;
        [ apply match_number_shorter in E;
          destruct (falsy f && falsy e)%bool;
          [destruct (parse_int max_str_digits i)|];
          intros H; inversion H; subst;
          (split; [exact E | intros t Ht; discriminate Ht]) | ]
    end.
  discriminate.
Qed.

(** In a dict decoded from a text that starts with an opening brace, every
    string value is shorter than the text. *)
Lemma loads_brace_strings (r : pystr) (d : dict) (k t : pystr) :
  loads (lbrace :: r) = Decoded (PyDict d) ->
  dict_lookup d k = Some (PyStr t) ->
  (List.length t < List.length (lbrace :: r))%nat.
Proof.
  unfold loads. rewrite loads_within_brace.
  destruct recursion_limit as [|depth]; [discriminate|].
  destruct (JSONObject _ _ r) as [obj rest| |e|] eqn:E; try discriminate.
  apply (JSONObject_sound _ (scan_once_sound _ _ depth)) in E.
  destruct E as [Hr (d' & -> & Hd)].
  destruct (skip_ws rest); [|discriminate].
  intros H; inversion H; subst d'. intros Hl.
  specialize (Hd k t Hl). simpl; lia.
Qed.

End JsonFacts.
(** ** The [str] methods *)

Module PyStrFacts.

Lemma len_app (a b : pystr) : len (a ++ b) = len a + len b.
Proof. unfold len. rewrite length_app. lia. Qed.

Lemma len_cons (c : N) (s : pystr) : len (c :: s) = 1 + len s.
Proof. unfold len. simpl List.length. lia. Qed.

Lemma len_nonneg (s : pystr) : 0 <= len s.
Proof. unfold len. lia. Qed.

Lemma eqb_neq_notin (c x : N) (r : pystr) :
  N.eqb x c = false -> ~ In c r -> ~ In c (x :: r).
Proof.
  intros E H [->|Hin]; [rewrite N.eqb_refl in E; discriminate | tauto].
Qed.

(** [find]: either the character is absent and the answer is [-1], or the
    answer is the length of the longest prefix without it. *)
Lemma find_from_spec (c : N) (s : pystr) :
  forall i,
    (~ In c s /\ find_from c s i = -1) \/
    (exists a b, s = a ++ c :: b /\ ~ In c a /\ find_from c s i = i + len a).
Proof.
  induction s as [|x r IH]; intros i; simpl.
  - left. tauto.
  - destruct (N.eqb x c) eqn:E.
    + apply N.eqb_eq in E. subst x. right. exists [], r.
      repeat split; [tauto | unfold len; simpl; lia].
    + destruct (IH (i + 1)) as [[Hn Hf]|(a & b & -> & Hn & Hf)].
      * left. split; [|exact Hf]. apply (eqb_neq_notin c x r E Hn).
      * right. exists (x :: a), b. repeat split.
        -- apply (eqb_neq_notin c x a E Hn).
        -- rewrite Hf, len_cons. lia.
Qed.

Lemma find_spec (c : N) (s : pystr) :
  (~ In c s /\ find c s = -1) \/
  (exists a b, s = a ++ c :: b /\ ~ In c a /\ find c s = len a).
Proof.
  destruct (find_from_spec c s 0) as [H|(a & b & H1 & H2 & H3)];
    [left; exact H | right; exists a, b; repeat split; assumption].
Qed.

Lemma find_absent (c : N) (s : pystr) : find c s < 0 <-> ~ In c s.
Proof.
  destruct (find_spec c s) as [[Hn Hf]|(a & b & -> & Hn & Hf)].
  - rewrite Hf. split; [intros _; exact Hn | lia].
  - rewrite Hf. pose proof (len_nonneg a) as Ha. split; [lia|].
    intros H. exfalso. apply H. apply in_or_app. right. left. reflexivity.
Qed.

Lemma find_from_app (c : N) (a b : pystr) :
  forall i, ~ In c a -> find_from c (a ++ c :: b) i = i + len a.
Proof.
  induction a as [|x a IH]; intros i Hn; simpl.
  - rewrite N.eqb_refl. unfold len; simpl; lia.
  - destruct (N.eqb x c) eqn:E.
    + apply N.eqb_eq in E. subst. exfalso. apply Hn. left. reflexivity.
    + rewrite IH, len_cons; [lia|]. intros H. apply Hn. right. exact H.
Qed.

Lemma find_app (c : N) (a b : pystr) :
  ~ In c a -> find c (a ++ c :: b) = len a.
Proof. intros H. unfold find. rewrite find_from_app; [lia | exact H]. Qed.

Lemma rfind_from_absent (c : N) (s : pystr) :
  forall i last, ~ In c s -> rfind_from c s i last = last.
Proof.
  induction s as [|x r IH]; intros i last Hn; simpl; [reflexivity|].
  destruct (N.eqb x c) eqn:E.
  - apply N.eqb_eq in E. subst. exfalso. apply Hn. left. reflexivity.
  - apply IH. intros H. apply Hn. right. exact H.
Qed.

Lemma rfind_from_app (c : N) (a b : pystr) :
  forall i last, ~ In c b -> rfind_from c (a ++ c :: b) i last = i + len a.
Proof.
  induction a as [|x a IH]; intros i last Hn; simpl.
  - rewrite N.eqb_refl, rfind_from_absent by exact Hn.
    unfold len; simpl; lia.
  - rewrite IH by exact Hn. rewrite len_cons. lia.
Qed.

Lemma rfind_app (c : N) (a b : pystr) :
  ~ In c b -> rfind c (a ++ c :: b) = len a.
Proof. intros H. unfold rfind. rewrite rfind_from_app; [lia | exact H]. Qed.

(** The slice that starts after [a] and has the length of [m]. *)
Lemma slice_middle (a m b : pystr) :
  slice (a ++ m ++ b) (len a) (len a + len m) = m.
Proof.
  unfold slice, clamp.
  rewrite !len_app.
  pose proof (len_nonneg a). pose proof (len_nonneg m).
  pose proof (len_nonneg b).
  destruct (len a <? 0) eqn:E1; [apply Z.ltb_lt in E1; lia|].
  destruct (len a + len m <? 0) eqn:E2; [apply Z.ltb_lt in E2; lia|].
  rewrite !Z.min_l by lia.
  replace (Z.to_nat (len a)) with (List.length a) by (unfold len; lia).
  replace (Z.to_nat (len a + len m - len a)) with (List.length m)
    by (unfold len; lia).
  rewrite skipn_app, skipn_all, Nat.sub_diag. simpl.
  rewrite firstn_app, firstn_all, Nat.sub_diag. simpl.
  apply app_nil_r.
Qed.

(** A slice is no longer than the text. *)
Lemma slice_length (s : pystr) (a b : Z) :
  (List.length (slice s a b) <= List.length s)%nat.
Proof.
  unfold slice. rewrite length_firstn, length_skipn. lia.
Qed.

(** A slice that starts at an occurrence of [c] and is not empty starts
    with [c]. *)
Lemma slice_head (c : N) (a b : pystr) (e : Z) :
  len a < e ->
  exists r, slice (a ++ c :: b) (len a) e = c :: r.
Proof.
  intros He. unfold slice, clamp.
  rewrite len_app, len_cons.
  pose proof (len_nonneg a). pose proof (len_nonneg b).
  destruct (len a <? 0) eqn:E1; [apply Z.ltb_lt in E1; lia|].
  destruct (e <? 0) eqn:E2; [apply Z.ltb_lt in E2; lia|].
  rewrite (Z.min_l (len a)) by lia.
  replace (Z.to_nat (len a)) with (List.length a) by (unfold len; lia).
  rewrite skipn_app, skipn_all, Nat.sub_diag.
  change ([] ++ skipn 0 (c :: b)) with (c :: b).
  destruct (Z.to_nat (Z.min e (len a + (1 + len b)) - len a)) eqn:K; [lia|].
  eexists; reflexivity.
Qed.

(** *** [strip] *)

Lemma lstrip_stop (a : pystr) (c : N) (x : pystr) :
  isspace c = false -> lstrip (a ++ c :: x) = lstrip a ++ c :: x.
Proof.
  intros Hc. induction a as [|y a IH]; simpl.
  - rewrite Hc. reflexivity.
  - destruct (isspace y); [exact IH | reflexivity].
Qed.

Lemma rstrip_stop (x : pystr) (c : N) (b : pystr) :
  isspace c = false -> rstrip (x ++ c :: b) = x ++ c :: rstrip b.
Proof.
  intros Hc. unfold rstrip.
  rewrite rev_app_distr. simpl. rewrite <- app_assoc. simpl.
  rewrite lstrip_stop by exact Hc.
  rewrite rev_app_distr. simpl. rewrite rev_involutive, <- app_assoc.
  reflexivity.
Qed.

Lemma lstrip_incl (c : N) (s : pystr) : In c (lstrip s) -> In c s.
Proof.
  induction s as [|y s IH]; simpl; [tauto|].
  destruct (isspace y); [intros H; right; apply IH, H | tauto].
Qed.

Lemma rstrip_incl (c : N) (s : pystr) : In c (rstrip s) -> In c s.
Proof.
  unfold rstrip. intros H.
  apply in_rev in H. apply lstrip_incl in H. apply in_rev in H. exact H.
Qed.

Lemma lstrip_nil (s : pystr) : lstrip s = [] <-> forallb isspace s = true.
Proof.
  induction s as [|y s IH]; simpl; [tauto|].
  destruct (isspace y); simpl; [exact IH | split; discriminate].
Qed.

Lemma forallb_rev (f : N -> bool) (s : pystr) :
  forallb f (rev s) = forallb f s.
Proof.
  induction s as [|y s IH]; simpl; [reflexivity|].
  rewrite forallb_app, IH. simpl. rewrite andb_true_r. apply andb_comm.
Qed.

Lemma lstrip_head (s : pystr) :
  lstrip s = [] \/ exists y r, lstrip s = y :: r /\ isspace y = false.
Proof.
  induction s as [|y s IH]; simpl; [left; reflexivity|].
  destruct (isspace y) eqn:E; [exact IH|].
  right. exists y, s. split; [reflexivity | exact E].
Qed.

(** [not text.strip()] holds exactly for the empty and the whitespace-only
    texts. *)
Lemma strip_nil (s : pystr) : strip s = [] <-> forallb isspace s = true.
Proof.
  unfold strip, rstrip. split.
  - intros H.
    assert (H1 : lstrip (rev (lstrip s)) = []).
    { rewrite <- (rev_involutive (lstrip (rev (lstrip s)))), H.
      reflexivity. }
    apply lstrip_nil in H1. rewrite forallb_rev in H1.
    destruct (lstrip_head s) as [E|(y & r & E & Hy)].
    + apply lstrip_nil, E.
    + rewrite E in H1. simpl in H1. rewrite Hy in H1. discriminate.
  - intros H. apply lstrip_nil in H. rewrite H. reflexivity.
Qed.

Lemma falsy_nil (s : pystr) : falsy s = true <-> s = [].
Proof. destruct s; simpl; split; congruence. Qed.

End PyStrFacts.

(** ** The parser, case by case *)

Module ParseFacts.
Import PyStrFacts JsonFacts.

(** The three return statements of [parse_gemini_response]. *)
Lemma parse_unfold (raw : pystr) (w : world) :
  parse_gemini_response raw w =
  if has_braces (strip raw) then
    match Json.loads (json_str (strip raw)) with
    | Json.Decoded v => (Ok v, logged w INFO ParsedJSON)
    | Json.JSONDecodeError =>
        (Ok (failed_to_parse (strip raw)), logged w ERROR JSONParsingError)
    | Json.Raises e => (Err (JsonRaised e), w)
    | Json.Unfinished => (Err Unfinished, w)
    end
  else (Ok (invalid_response_format (strip raw)), logged w ERROR NoJSONFound).
Proof.
  unfold parse_gemini_response, has_braces, json_str.
  destruct ((find lbrace (strip raw) >=? 0)
            && (rfind rbrace (strip raw) + 1 >? find lbrace (strip raw)))%bool;
    [|reflexivity].
  destruct (Json.loads _); reflexivity.
Qed.

Lemma has_braces_true (t : pystr) :
  has_braces t = true <->
  0 <= find lbrace t /\ find lbrace t < rfind rbrace t + 1.
Proof.
  unfold has_braces. rewrite andb_true_iff. 
  rewrite Z.geb_le, Z.gtb_lt. tauto.
Qed.

(** When the test succeeds, the substring starts with a brace. *)
Lemma json_str_head (t : pystr) :
  has_braces t = true -> exists r, json_str t = lbrace :: r.
Proof.
  intros H. apply has_braces_true in H. destruct H as [H0 H1].
  unfold json_str.
  destruct (find_spec lbrace t) as [[_ Hf]|(a & b & E & _ & Hf)]; [lia|].
  subst t. rewrite Hf in *.
  apply slice_head. exact H1.
Qed.

End ParseFacts.

(** ** The claims *)

Module Claims.
Import PyStrFacts JsonFacts ParseFacts.

(** C1. For every resume text and job description, with or without braces
    in them, [create_prompt] returns: the template is three stretches of
    literal text around the fields [{resume}] and [{jd}], the first two
    free of braces, and the result is these stretches (doubled braces of
    the last one read as single ones) with the two arguments put, as they
    are, in place of the fields. *)
Theorem create_prompt_substitutes :
  prompt = prompt_head ++ lit "{resume}" ++ prompt_middle ++ lit "{jd}"
           ++ prompt_tail
  /\ no_brace (prompt_head ++ prompt_middle) = true
  /\ forall resume_text job_description : pystr,
       create_prompt resume_text job_description =
       Ok (prompt_head ++ resume_text ++ prompt_middle ++ job_description
           ++ unescape prompt_tail).
Proof.
  split; [vm_compute; reflexivity|].
  split; [vm_compute; reflexivity|].
  intros resume_text job_description.
  vm_compute. reflexivity.
Qed.

(** ** Extraction *)

Lemma read_pages_texts (texts : list pystr) :
  forall text, read_pages (List.map Text texts) text = Ok (text ++ List.concat texts).
Proof.
  induction texts as [|t texts IH]; intros text; simpl.
  - rewrite app_nil_r. reflexivity.
  - rewrite IH, app_assoc. reflexivity.
Qed.

Lemma read_pages_raises (pages : list pdf_page) (e : pystr) :
  In (ExtractRaises e) pages ->
  forall text, exists e', read_pages pages text = Err e'.
Proof.
  induction pages as [|p pages IH]; intros Hin text; [destruct Hin|].
  destruct p as [t|e0]; simpl.
  - destruct Hin as [Hp|Hin]; [discriminate|]. apply IH, Hin.
  - exists e0. reflexivity.
Qed.

Lemma pages_cases (pages : list pdf_page) :
  (exists texts, pages = List.map Text texts) \/
  (exists e, In (ExtractRaises e) pages).
Proof.
  induction pages as [|p pages IH].
  - left. exists []. reflexivity.
  - destruct p as [t|e].
    + destruct IH as [[texts ->]|[e He]].
      * left. exists (t :: texts). reflexivity.
      * right. exists e. right. exact He.
    + right. exists e. left. reflexivity.
Qed.

Lemma falsy_strip (text : pystr) :
  falsy (strip text) = forallb isspace text.
Proof.
  destruct (forallb isspace text) eqn:E.
  - apply strip_nil in E. rewrite E. reflexivity.
  - destruct (falsy (strip text)) eqn:F; [|reflexivity].
    apply falsy_nil, strip_nil in F. congruence.
Qed.

Lemma extract_pdf_text_texts (file_name : pystr) (texts : list pystr) (w : world) :
  fst (extract_pdf_text (mkFile file_name (Pages (List.map Text texts))) w) =
  if forallb isspace (List.concat texts) then None else Some (List.concat texts).
Proof.
  unfold extract_pdf_text, bind, logger, ret. simpl.
  rewrite read_pages_texts. simpl. rewrite falsy_strip.
  destruct (forallb isspace (List.concat texts)); reflexivity.
Qed.

(** C2. When every page can be read, [extract_pdf_text] returns the
    concatenation of the page texts, in page order, nothing skipped and
    nothing added (a page without text adds the empty string), unless that
    concatenation is empty or whitespace only; and it fails only in that
    case or when opening the document or reading a page raises. *)
Theorem extract_pdf_text_concatenates :
  (forall (file_name : pystr) (texts : list pystr) (w : world),
     fst (extract_pdf_text (mkFile file_name (Pages (List.map Text texts))) w) =
     if forallb isspace (List.concat texts) then None else Some (List.concat texts))
  /\
  (forall (uploaded_file : UploadedFile) (w : world),
     fst (extract_pdf_text uploaded_file w) = None <->
     (exists e, PdfReader uploaded_file = ReaderRaises e) \/
     (exists pages e, PdfReader uploaded_file = Pages pages /\
                      In (ExtractRaises e) pages) \/
     (exists texts, PdfReader uploaded_file = Pages (List.map Text texts) /\
                    forallb isspace (List.concat texts) = true)).
Proof.
  split; [exact extract_pdf_text_texts|].
  intros [file_name reader] w. simpl.
  destruct reader as [pages|e].
  - destruct (pages_cases pages) as [[texts ->]|[e He]].
    + rewrite extract_pdf_text_texts.
      destruct (forallb isspace (List.concat texts)) eqn:E.
      * split; [|reflexivity]. intros _. right. right.
        exists texts. split; [reflexivity | exact E].
      * split; [discriminate|].
        intros [[e H]|[(pages & e & H & Hin)|(texts' & H & Hs)]].
        -- discriminate.
        -- inversion H; subst. apply in_map_iff in Hin.
           destruct Hin as (t & Ht & _). discriminate.
        -- inversion H as [Hm].
           assert (texts = texts').
           { clear -Hm. revert texts' Hm.
             induction texts as [|t texts IH]; intros [|t' texts'] Hm;
               simpl in Hm; try discriminate; [reflexivity|].
             inversion Hm. f_equal. apply IH. assumption. }
           subst. congruence.
    + split.
      * intros _. right. left. exists pages, e. split; [reflexivity | exact He].
      * intros _. unfold extract_pdf_text, bind, logger, ret. simpl.
        destruct (read_pages_raises pages e He []) as [e' ->]. reflexivity.
  - split.
    + intros _. left. exists e. reflexivity.
    + intros _. reflexivity.
Qed.

(** ** The parser *)

Lemma lit_absent (c : N) (s : pystr) : find c s = -1 -> ~ In c s.
Proof. intros H. apply find_absent. lia. Qed.

(** C3, as stated, fails twice.  On a text without braces that has
    whitespace around it, the [raw_response] of the format error is not the
    original text.  And a text with a well-placed pair of braces can return
    a format error all the same: the one its payload spells out. *)
Lemma format_error_claim_fails :
  (let raw := lit " I cannot process this request. " in
   ~ In lbrace raw /\ ~ In rbrace raw /\
   fst (parse_gemini_response raw w0) =
     Ok (invalid_response_format (lit "I cannot process this request.")) /\
   fst (parse_gemini_response raw w0) <> Ok (invalid_response_format raw))
  /\
  (0 <= find lbrace (strip in_band_reply)
     < rfind rbrace (strip in_band_reply) /\
   fst (parse_gemini_response in_band_reply w0) =
     Ok (invalid_response_format (lit "I cannot process this request."))).
Proof.
  cbv zeta. split; [split; [|split; [|split]] | split].
  - apply lit_absent. vm_compute. reflexivity.
  - apply lit_absent. vm_compute. reflexivity.
  - vm_compute. reflexivity.
  - vm_compute. intros H. discriminate H.
  - vm_compute. split; [discriminate | reflexivity].
  - vm_compute. reflexivity.
Qed.

(** A value decoded from the substring is never the format error of the
    text itself: its [raw_response] would be a string inside the substring
    and as long as the whole text. *)
Lemma decoded_is_not_format_error (t : pystr) :
  has_braces t = true ->
  Json.loads (json_str t) <> Json.Decoded (invalid_response_format t).
Proof.
  intros B H.
  destruct (json_str_head t B) as [r E].
  pose proof (slice_length t (find lbrace t) (rfind rbrace t + 1)) as L.
  fold (json_str t) in L. rewrite E in H, L.
  apply (loads_brace_strings r _ (lit "raw_response") t) in H;
    [lia | reflexivity].
Qed.

(** C3, amended. [parse_gemini_response] returns the format error of its
    input, the dict [invalid_response_format] whose [raw_response] is the
    stripped text, exactly when the stripped text has no opening brace or
    its last closing brace comes before its first opening brace; it then
    logs that no JSON was found. *)
Theorem format_error_iff (raw : pystr) (w : world) :
  (fst (parse_gemini_response raw w) = Ok (invalid_response_format (strip raw))
   <->
   (~ In lbrace (strip raw) \/
    rfind rbrace (strip raw) < find lbrace (strip raw)))
  /\
  ((~ In lbrace (strip raw) \/
    rfind rbrace (strip raw) < find lbrace (strip raw)) ->
   snd (parse_gemini_response raw w) = logged w ERROR NoJSONFound)
  /\
  match invalid_response_format (strip raw) with
  | PyDict d => dict_lookup d (lit "raw_response") = Some (PyStr (strip raw))
  | _ => False
  end.
Proof.
  assert (Hcond : has_braces (strip raw) = false <->
                  (~ In lbrace (strip raw) \/
                   rfind rbrace (strip raw) < find lbrace (strip raw))).
  { split.
    - intros B. unfold has_braces in B. apply andb_false_iff in B.
      destruct B as [B|B].
      + left. apply find_absent.
        destruct (Z.geb_spec (find lbrace (strip raw)) 0); [discriminate | lia].
      + right.
        destruct (Z.gtb_spec (rfind rbrace (strip raw) + 1)
                             (find lbrace (strip raw))); [discriminate | lia].
    - intros C. destruct (has_braces (strip raw)) eqn:B; [|reflexivity].
      apply has_braces_true in B. destruct C as [Hn|Hlt]; [|lia].
      apply find_absent in Hn. lia. }
  split; [|split; [|vm_compute; reflexivity]].
  - rewrite <- Hcond, parse_unfold.
    destruct (has_braces (strip raw)) eqn:B; [|split; reflexivity].
    split; [|discriminate]. intros H. exfalso.
    pose proof (decoded_is_not_format_error (strip raw) B) as Hd.
    set (t := strip raw) in *. clearbody t.
    destruct (Json.loads (json_str t)) as [v| |e|]; cbn [fst] in H.
    + inversion H; subst. apply Hd. reflexivity.
    + vm_compute in H. discriminate H.
    + discriminate H.
    + discriminate H.
  - intros C. apply Hcond in C. rewrite parse_unfold, C. reflexivity.
Qed.

(** On a text without any brace the format error is returned and logged. *)
Lemma format_error_iff_witness :
  fst (parse_gemini_response (lit "I cannot process this request.") w0) =
    Ok (invalid_response_format (lit "I cannot process this request.")) /\
  snd (parse_gemini_response (lit "I cannot process this request.") w0) =
    logged w0 ERROR NoJSONFound.
Proof.
  destruct (format_error_iff (lit "I cannot process this request.") w0)
    as (Hiff & Hlog & _).
  assert (C : ~ In lbrace (strip (lit "I cannot process this request.")) \/
              rfind rbrace (strip (lit "I cannot process this request."))
              < find lbrace (strip (lit "I cannot process this request."))).
  { left. apply lit_absent. vm_compute. reflexivity. }
  split; [apply Hiff, C | apply Hlog, C].
Defined.

(** What a call of [parse_gemini_response] comes to: it returns a dict, or
    an exception of [json.loads] that is no [JSONDecodeError] leaves it. *)
Lemma parse_outcomes (raw : pystr) (w : world) :
  (exists d, fst (parse_gemini_response raw w) = Ok (PyDict d)) \/
  (exists e, has_braces (strip raw) = true /\
             Json.loads (json_str (strip raw)) = Json.Raises e /\
             parse_gemini_response raw w = (Err (JsonRaised e), w)).
Proof.
  rewrite parse_unfold.
  destruct (has_braces (strip raw)) eqn:B; [|left; eexists; reflexivity].
  destruct (json_str_head _ B) as [r E].
  pose proof (loads_finishes (json_str (strip raw))) as F.
  destruct (Json.loads (json_str (strip raw))) as [v| |e|] eqn:L.
  - rewrite E in L. destruct (loads_brace_dict r v L) as [d ->].
    left. exists d. reflexivity.
  - left. eexists. reflexivity.
  - right. exists e. repeat split.
  - congruence.
Qed.

(** C6, as stated, fails twice.  The parse error carries the stripped
    text, not the text it was given.  And there is a text whose substring
    between the outermost braces is not valid, on which no parse error is
    returned: [json.loads] raises [RecursionError], which the handler of
    [JSONDecodeError] does not catch. *)
Lemma parse_error_claim_fails :
  (let raw := lit " {not json} " in
   has_braces (strip raw) = true /\
   Json.loads (json_str (strip raw)) = Json.JSONDecodeError /\
   fst (parse_gemini_response raw w0) = Ok (failed_to_parse (lit "{not json}")) /\
   fst (parse_gemini_response raw w0) <> Ok (failed_to_parse raw))
  /\
  (has_braces (strip deep_reply) = true /\
   (forall v, Json.loads (json_str (strip deep_reply)) <> Json.Decoded v) /\
   fst (parse_gemini_response deep_reply w0)
     = Err (JsonRaised Json.RecursionError)).
Proof.
  cbv zeta. split; [split; [|split; [|split]] | split; [|split]];
    try (vm_compute; reflexivity).
  - vm_compute. intros H. discriminate H.
  - intros v.
    replace (Json.loads (json_str (strip deep_reply)))
      with (Json.Raises Json.RecursionError) by (vm_compute; reflexivity).
    discriminate.
Qed.

(** C6, amended. When [json.loads] raises [JSONDecodeError] on the
    substring between the first opening and the last closing brace of the
    stripped text, [parse_gemini_response] returns the parse-error dict,
    whose [raw_response] is the stripped text, and logs the error. *)
Theorem parse_error_keeps_stripped (raw : pystr) (w : world) :
  has_braces (strip raw) = true ->
  Json.loads (json_str (strip raw)) = Json.JSONDecodeError ->
  parse_gemini_response raw w =
    (Ok (failed_to_parse (strip raw)), logged w ERROR JSONParsingError)
  /\ match failed_to_parse (strip raw) with
     | PyDict d => dict_lookup d (lit "raw_response") = Some (PyStr (strip raw))
     | _ => False
     end.
Proof.
  intros B D. split; [|vm_compute; reflexivity].
  rewrite parse_unfold, B, D. reflexivity.
Qed.

Lemma parse_error_keeps_stripped_witness :
  parse_gemini_response (lit " {not json} ") w0 =
  (Ok (failed_to_parse (lit "{not json}")), logged w0 ERROR JSONParsingError).
Proof.
  apply (parse_error_keeps_stripped (lit " {not json} ") w0);
    vm_compute; reflexivity.
Defined.

(** C7. When the substring decodes, [parse_gemini_response] returns the
    decoded object as it is, whatever its keys; in scenario A the decoded
    reply of the stub reaches [display_results] unchanged. *)
Theorem parse_returns_decoded :
  (forall (raw : pystr) (w : world) (v : pyval),
     has_braces (strip raw) = true ->
     Json.loads (json_str (strip raw)) = Json.Decoded v ->
     parse_gemini_response raw w = (Ok v, logged w INFO ParsedJSON))
  /\
  Json.loads scenario_A_reply = Json.Decoded (PyDict scenario_A_result)
  /\
  (forall w : world,
     fst (parse_gemini_response scenario_A_reply w) =
       Ok (PyDict scenario_A_result))
  /\
  (let run := main_analysis scenario_A_stub (Some scenario_A_file)
                            scenario_A_jd w0 in
   fst run = Ok tt /\
   page (snd run) = [ResultsHeading; ResultTabs scenario_A_result; Footer]).
Proof.
  split.
  { intros raw w v B D. rewrite parse_unfold, B, D. reflexivity. }
  split; [vm_compute; reflexivity|].
  split; [intros w; vm_compute; reflexivity|].
  cbv zeta. split; vm_compute; reflexivity.
Qed.

(** A reply without the keys of the schema, and with one outside it. *)
Lemma parse_returns_decoded_witness :
  parse_gemini_response (litq "Result: {'Score': 7}") w0 =
  (Ok (PyDict [(lit "Score", PyInt 7)]), logged w0 INFO ParsedJSON).
Proof.
  apply (proj1 parse_returns_decoded); vm_compute; reflexivity.
Defined.

(** C8. The value [parse_gemini_response] returns depends on its argument
    only: it is the same in every world, and in particular when the call
    is repeated. *)
Theorem parse_gemini_response_pure (raw : pystr) (w w' : world) :
  fst (parse_gemini_response raw w) = fst (parse_gemini_response raw w')
  /\
  fst (parse_gemini_response raw (snd (parse_gemini_response raw w))) =
  fst (parse_gemini_response raw w).
Proof.
  assert (G : forall a b, fst (parse_gemini_response raw a) =
                          fst (parse_gemini_response raw b)).
  { intros a b. rewrite !parse_unfold.
    destruct (has_braces (strip raw)); [|reflexivity].
    destruct (Json.loads (json_str (strip raw))); reflexivity. }
  split; apply G.
Qed.

(** C9. [parse_gemini_response] returns a dict on every return path: the
    decoded object, which is a dict because the substring starts with a
    brace, or one of the two error dicts, which have the keys [error] and
    [raw_response].  The only calls that do not return are those in which
    [json.loads] raises an exception other than [JSONDecodeError], which
    line 88 does not catch. *)
Theorem parse_returns_mapping (raw : pystr) (w : world) :
  (exists d : dict,
    fst (parse_gemini_response raw w) = Ok (PyDict d) /\
    ((has_braces (strip raw) = true /\
      Json.loads (json_str (strip raw)) = Json.Decoded (PyDict d))
     \/
     ((PyDict d = invalid_response_format (strip raw) \/
       PyDict d = failed_to_parse (strip raw)) /\
      dict_contains d (lit "error") = true /\
      dict_contains d (lit "raw_response") = true)))
  \/
  (exists e : Json.error,
    has_braces (strip raw) = true /\
    Json.loads (json_str (strip raw)) = Json.Raises e /\
    fst (parse_gemini_response raw w) = Err (JsonRaised e)).
Proof.
  rewrite parse_unfold.
  destruct (has_braces (strip raw)) eqn:B.
  - destruct (json_str_head _ B) as [r E].
    pose proof (loads_finishes (json_str (strip raw))) as F.
    destruct (Json.loads (json_str (strip raw))) as [v| |e|] eqn:L;
      [| | |congruence].
    + rewrite E in L. destruct (loads_brace_dict r v L) as [d ->].
      left. exists d. split; [reflexivity|]. left. split; reflexivity.
    + left. eexists. split; [reflexivity|]. right.
      split; [right; reflexivity|]. split; vm_compute; reflexivity.
    + right. exists e. split; [reflexivity|]. split; reflexivity.
  - left. eexists. split; [reflexivity|]. right.
    split; [left; reflexivity|]. split; vm_compute; reflexivity.
Qed.

(** C10. Errors are signalled in band: the reply [in_band_reply] decodes,
    and what the parser returns for it is the very dict it returns as the
    format error of a reply without braces; [display_results] shows it as
    an error. *)
Theorem in_band_error (w : world) :
  exists d : dict,
    has_braces (strip in_band_reply) = true /\
    Json.loads (json_str (strip in_band_reply)) = Json.Decoded (PyDict d) /\
    parse_gemini_response in_band_reply w =
      (Ok (PyDict d), logged w INFO ParsedJSON) /\
    dict_contains d (lit "error") = true /\
    parse_gemini_response (lit "I cannot process this request.") w =
      (Ok (PyDict d), logged w ERROR NoJSONFound) /\
    display_results (PyDict d) w =
      (Ok tt,
       mkWorld (log w) (requests w)
               (page w ++ [ErrorAnalyzing;
                           StWrite (PyStr (lit "Raw response:"));
                           StWrite (PyStr (lit "I cannot process this request."))])).
Proof.
  eexists. split; [vm_compute; reflexivity|].
  split; [vm_compute; reflexivity|].
  split; [vm_compute; reflexivity|].
  split; [vm_compute; reflexivity|].
  split; [vm_compute; reflexivity|].
  unfold display_results, bind, st, ret. cbn.
  rewrite <- !app_assoc. reflexivity.
Qed.

(** C5, as stated, fails: the text below contains exactly one well-formed
    payload, with prose before and after it, and the parser does not
    recover it, because the prose has braces of its own. *)
Lemma prose_with_braces_breaks_recovery :
  let raw := litq "Note {draft}: {'JD Match': '70%'} end" in
  let payload := litq "{'JD Match': '70%'}" in
  let intended := PyDict [(lit "JD Match", PyStr (lit "70%"))] in
  raw = lit "Note {draft}: " ++ payload ++ lit " end" /\
  payloads raw = [(14, 33)] /\
  slice raw 14 33 = payload /\
  Json.loads payload = Json.Decoded intended /\
  fst (parse_gemini_response raw w0) = Ok (failed_to_parse raw) /\
  fst (parse_gemini_response raw w0) <> Ok intended.
Proof.
  cbv zeta. split; [|split; [|split; [|split; [|split]]]];
    try (vm_compute; reflexivity).
  vm_compute. intros H. discriminate H.
Qed.

Lemma regroup (a body b : pystr) :
  a ++ (lbrace :: body ++ [rbrace]) ++ b = (a ++ lbrace :: body) ++ rbrace :: b.
Proof. rewrite <- !app_assoc. simpl. rewrite <- !app_assoc. reflexivity. Qed.

Lemma strip_around (pre body post : pystr) :
  strip (pre ++ (lbrace :: body ++ [rbrace]) ++ post) =
  lstrip pre ++ (lbrace :: body ++ [rbrace]) ++ rstrip post.
Proof.
  unfold strip.
  change (pre ++ (lbrace :: body ++ [rbrace]) ++ post)
    with (pre ++ lbrace :: ((body ++ [rbrace]) ++ post)).
  rewrite lstrip_stop by reflexivity.
  change (lstrip pre ++ lbrace :: (body ++ [rbrace]) ++ post)
    with (lstrip pre ++ (lbrace :: body ++ [rbrace]) ++ post).
  rewrite regroup, rstrip_stop by reflexivity.
  symmetry. apply regroup.
Qed.

(** C5, amended. When the prose before the payload has no opening brace
    and the prose after it has no closing brace, the substring the parser
    slices is the payload, and the parser returns what the payload decodes
    to. *)
Theorem parse_recovers_payload
  (pre body post : pystr) (v : pyval) (w : world) :
  ~ In lbrace pre -> ~ In rbrace post ->
  Json.loads (lbrace :: body ++ [rbrace]) = Json.Decoded v ->
  let raw := pre ++ (lbrace :: body ++ [rbrace]) ++ post in
  json_str (strip raw) = lbrace :: body ++ [rbrace] /\
  parse_gemini_response raw w = (Ok v, logged w INFO ParsedJSON).
Proof.
  intros Hpre Hpost D raw. unfold raw.
  assert (Ha : ~ In lbrace (lstrip pre))
    by (intros H; apply Hpre, lstrip_incl, H).
  assert (Hb : ~ In rbrace (rstrip post))
    by (intros H; apply Hpost, rstrip_incl, H).
  set (a := lstrip pre) in *. set (b := rstrip post) in *.
  set (m := lbrace :: body ++ [rbrace]) in *.
  assert (Hfind : find lbrace (a ++ m ++ b) = len a).
  { unfold m.
    change (a ++ (lbrace :: body ++ [rbrace]) ++ b)
      with (a ++ lbrace :: ((body ++ [rbrace]) ++ b)).
    apply find_app, Ha. }
  assert (Hrfind : rfind rbrace (a ++ m ++ b) + 1 = len a + len m).
  { unfold m. rewrite regroup, rfind_app by exact Hb.
    unfold len. rewrite length_app. simpl. rewrite length_app. simpl. lia. }
  assert (Hslice : json_str (strip (pre ++ m ++ post)) = m).
  { unfold m at 1. rewrite strip_around. fold m a b.
    unfold json_str. rewrite Hfind, Hrfind. apply slice_middle. }
  split; [exact Hslice|].
  rewrite parse_unfold, Hslice.
  replace (has_braces (strip (pre ++ m ++ post))) with true.
  - rewrite D. reflexivity.
  - symmetry. apply has_braces_true.
    unfold m. rewrite strip_around. fold m. fold a b.
    rewrite Hfind, Hrfind.
    pose proof (len_nonneg a) as La.
    assert (Lm : 0 < len m).
    { unfold m. rewrite len_cons.
      pose proof (len_nonneg (body ++ [rbrace])). lia. }
    lia.
Qed.

Lemma parse_recovers_payload_witness :
  parse_gemini_response
    (litq "  Here is the analysis: {'JD Match': '70%'} Hope it helps!  ") w0 =
  (Ok (PyDict [(lit "JD Match", PyStr (lit "70%"))]), logged w0 INFO ParsedJSON).
Proof.
  apply (parse_recovers_payload
           (lit "  Here is the analysis: ") (litq "'JD Match': '70%'")
           (lit " Hope it helps!  ")
           (PyDict [(lit "JD Match", PyStr (lit "70%"))]) w0).
  - apply lit_absent. vm_compute. reflexivity.
  - apply lit_absent. vm_compute. reflexivity.
  - vm_compute. reflexivity.
Defined.

(** ** The pipeline *)

Lemma extract_frame (uploaded_file : UploadedFile) (w : world) :
  let w1 := snd (extract_pdf_text uploaded_file w) in
  page w1 = page w /\ requests w1 = requests w /\
  exists recs, log w1 = log w ++ recs /\ existsb parser_record recs = false.
Proof.
  unfold extract_pdf_text, bind, logger, ret. simpl.
  destruct (PdfReader uploaded_file) as [pages|e]; simpl.
  - destruct (read_pages pages []) as [text|e]; simpl.
    + destruct (falsy (strip text)); simpl;
        (split; [reflexivity|]; split; [reflexivity|];
         eexists; split; [rewrite <- app_assoc; reflexivity | reflexivity]).
    + split; [reflexivity|]. split; [reflexivity|].
      eexists. split; [rewrite <- app_assoc; reflexivity | reflexivity].
  - split; [reflexivity|]. split; [reflexivity|].
    eexists. split; [rewrite <- app_assoc; reflexivity | reflexivity].
Qed.

Lemma extract_some_truthy (uploaded_file : UploadedFile) (w : world)
      (text : pystr) :
  fst (extract_pdf_text uploaded_file w) = Some text -> falsy text = false.
Proof.
  unfold extract_pdf_text, bind, logger, ret. simpl.
  destruct (PdfReader uploaded_file) as [pages|e]; simpl; [|discriminate].
  destruct (read_pages pages []) as [t|e]; simpl; [|discriminate].
  destruct (falsy (strip t)) eqn:F; simpl; [discriminate|].
  intros H. inversion H; subst.
  destruct text; [discriminate F | reflexivity].
Qed.

Lemma get_gemini_frame
      (generate_content :
         list pystr -> pystr -> result GenerateContentResponse pystr)
      (input_text : pystr) (w : world) :
  let w2 := snd (get_gemini_response generate_content input_text w) in
  page w2 = page w /\ requests w2 = requests w ++ [input_text] /\
  exists recs, log w2 = log w ++ recs /\ existsb parser_record recs = false.
Proof.
  unfold get_gemini_response, call_backend, bind, logger, ret. simpl.
  destruct (generate_content (requests w) input_text) as [[[text|e]]|e];
    simpl;
    (split; [reflexivity|]; split; [reflexivity|];
     eexists; split; [rewrite <- !app_assoc; reflexivity | reflexivity]).
Qed.

(** Every call of the parser leaves one record of its own in the log,
    unless [json.loads] raises past it. *)
Lemma parse_leaves_record (raw : pystr) (w : world) :
  (exists r, log (snd (parse_gemini_response raw w)) = log w ++ [r] /\
             parser_record r = true)
  \/
  (exists e, parse_gemini_response raw w = (Err (JsonRaised e), w)).
Proof.
  rewrite parse_unfold.
  destruct (has_braces (strip raw)); [|left; eexists; split; reflexivity].
  pose proof (loads_finishes (json_str (strip raw))) as F.
  destruct (Json.loads (json_str (strip raw))) as [v| |e|];
    [left; eexists; split; reflexivity | left; eexists; split; reflexivity
    | right; exists e; reflexivity | congruence].
Qed.

Section Runs.

Variable generate_content :
  list pystr -> pystr -> result GenerateContentResponse pystr.
Variable uploaded_file : UploadedFile.
Variable job_description : pystr.
Variable w : world.
Hypothesis described : falsy job_description = false.

Let w1 : world := snd (extract_pdf_text uploaded_file w).

(** The run that stops after the extraction. *)
Lemma run_extraction_fails :
  fst (extract_pdf_text uploaded_file w) = None ->
  main_analysis generate_content (Some uploaded_file) job_description w =
  (Ok tt, mkWorld (log w1) (requests w1) (page w1 ++ [ErrorExtraction])).
Proof.
  unfold w1, main_analysis, bind. rewrite described.
  destruct (extract_pdf_text uploaded_file w) as [r wx].
  cbn [fst snd]. intros ->. reflexivity.
Qed.

(** The run that stops after the completion. *)
Lemma run_completion_fails (resume_text prompt : pystr) :
  fst (extract_pdf_text uploaded_file w) = Some resume_text ->
  create_prompt resume_text job_description = Ok prompt ->
  let w2 := snd (get_gemini_response generate_content prompt w1) in
  not_ (fst (get_gemini_response generate_content prompt w1)) = true ->
  main_analysis generate_content (Some uploaded_file) job_description w =
  (Ok tt, mkWorld (log w2) (requests w2) (page w2 ++ [ErrorCompletion])).
Proof.
  intros Hsome Hprompt.
  pose proof (extract_some_truthy _ _ _ Hsome) as Htruthy.
  unfold w1, main_analysis, bind. rewrite described.
  destruct (extract_pdf_text uploaded_file w) as [r wx].
  cbn [fst snd] in *. subst r.
  change (not_ (Some resume_text)) with (falsy resume_text).
  rewrite Htruthy. cbv beta iota. rewrite Hprompt.
  destruct (get_gemini_response generate_content prompt wx) as [resp wy].
  cbn [fst snd]. intros ->. reflexivity.
Qed.

End Runs.

(** C4. The pipeline is fail-fast.  When extraction fails, the run ends
    with the extraction error on the page and no request was sent to the
    completion backend.  When the completion fails (no response, a
    response whose text cannot be read, or an empty one), the run ends
    normally with the completion error on the page and the log has no
    record of the parser, while a call of the parser leaves one unless
    an exception of [json.loads] passes through it. *)
Theorem main_analysis_fail_fast
  (generate_content :
     list pystr -> pystr -> result GenerateContentResponse pystr)
  (uploaded_file : UploadedFile) (job_description : pystr) (w : world) :
  falsy job_description = false ->
  let run := main_analysis generate_content (Some uploaded_file)
                           job_description w in
  let w1 := snd (extract_pdf_text uploaded_file w) in
  (fst (extract_pdf_text uploaded_file w) = None ->
   fst run = Ok tt /\
   page (snd run) = page w ++ [ErrorExtraction] /\
   requests (snd run) = requests w /\
   log (snd run) = log w1)
  /\
  (forall resume_text prompt : pystr,
     fst (extract_pdf_text uploaded_file w) = Some resume_text ->
     create_prompt resume_text job_description = Ok prompt ->
     not_ (fst (get_gemini_response generate_content prompt w1)) = true ->
     fst run = Ok tt /\
     page (snd run) = page w ++ [ErrorCompletion] /\
     requests (snd run) = requests w ++ [prompt] /\
     exists recs, log (snd run) = log w ++ recs /\
                  existsb parser_record recs = false)
  /\
  (forall (raw : pystr) (w' : world),
     (exists r, log (snd (parse_gemini_response raw w')) = log w' ++ [r] /\
                parser_record r = true)
     \/
     (exists e, parse_gemini_response raw w' = (Err (JsonRaised e), w'))).
Proof.
  intros Hjd. cbv zeta.
  pose proof (extract_frame uploaded_file w) as Hframe. cbv zeta in Hframe.
  destruct Hframe as (Hp1 & Hr1 & recs1 & Hl1 & Hn1).
  split; [|split; [|exact parse_leaves_record]].
  - intros Hnone.
    rewrite (run_extraction_fails generate_content _ _ _ Hjd Hnone).
    cbn [fst snd page requests log]. rewrite Hp1, Hr1. repeat split.
  - intros resume_text prompt Hsome Hprompt Hnot.
    rewrite (run_completion_fails generate_content _ _ _ Hjd _ _
               Hsome Hprompt Hnot).
    pose proof (get_gemini_frame generate_content prompt
                  (snd (extract_pdf_text uploaded_file w))) as Hframe.
    cbv zeta in Hframe. destruct Hframe as (Hp2 & Hr2 & recs2 & Hl2 & Hn2).
    cbn [fst snd page requests log]. rewrite Hp2, Hp1, Hr2, Hr1.
    repeat split.
    exists (recs1 ++ recs2). split.
    + rewrite Hl2, Hl1, app_assoc. reflexivity.
    + rewrite existsb_app, Hn1, Hn2. reflexivity.
Qed.

(** Scenario C, and scenario A with a backend out of quota. *)
Lemma main_analysis_fail_fast_witness :
  (let run := main_analysis scenario_A_stub (Some scenario_C_file)
                            scenario_A_jd w0 in
   fst run = Ok tt /\ page (snd run) = [ErrorExtraction] /\
   requests (snd run) = [])
  /\
  (let run := main_analysis failing_backend (Some scenario_A_file)
                            scenario_A_jd w0 in
   fst run = Ok tt /\ page (snd run) = [ErrorCompletion] /\
   exists recs, log (snd run) = recs /\ existsb parser_record recs = false).
Proof.
  split.
  - destruct (main_analysis_fail_fast scenario_A_stub scenario_C_file
                scenario_A_jd w0 eq_refl) as [Ha _].
    destruct (Ha eq_refl) as (H1 & H2 & H3 & _).
    cbv zeta. split; [exact H1|]. split; [exact H2 | exact H3].
  - destruct (main_analysis_fail_fast failing_backend scenario_A_file
                scenario_A_jd w0 eq_refl) as [_ [Hb _]].
    destruct (create_prompt (lit "Python, SQL, 3 years experience")
                            scenario_A_jd) as [prompt|e] eqn:P;
      [|vm_compute in P; discriminate P].
    destruct (Hb (lit "Python, SQL, 3 years experience") prompt
                 eq_refl P eq_refl) as (H1 & H2 & _ & recs & H4 & H5).
    cbv zeta. split; [exact H1|]. split; [exact H2|].
    exists recs. split; [exact H4 | exact H5].
Defined.

End Claims.

(** ** Further properties of the program *)

Module Extras.
Import PyStrFacts JsonFacts ParseFacts Claims Tabs Outcome.

#[local] Arguments create_prompt : simpl never.
#[local] Arguments extract_pdf_text : simpl never.
#[local] Arguments get_gemini_response : simpl never.
#[local] Arguments parse_gemini_response : simpl never.
#[local] Arguments display_results : simpl never.

(** *** Extraction *)

(** X1. A text returned by [extract_pdf_text] is never empty or whitespace
    only: it is the concatenation of the texts of all pages, every page was
    read, and the success is logged with the number of pages. *)
Theorem extract_pdf_text_some
  (uploaded_file : UploadedFile) (w : world) (text : pystr) :
  fst (extract_pdf_text uploaded_file w) = Some text ->
  forallb isspace text = false /\
  exists texts,
    PdfReader uploaded_file = Pages (List.map Text texts) /\
    text = List.concat texts /\
    log (snd (extract_pdf_text uploaded_file w)) =
      log w ++ [(INFO, ProcessingPDF (name uploaded_file));
                (INFO, ExtractedText (List.length texts))].
Proof.
  destruct uploaded_file as [file_name reader].
  unfold extract_pdf_text, bind, logger, ret. cbn [name PdfReader].
  destruct reader as [pages|e]; [|discriminate].
  destruct (pages_cases pages) as [[texts ->]|[e He]].
  - rewrite read_pages_texts. cbn [app].
    rewrite falsy_strip.
    destruct (forallb isspace (List.concat texts)) eqn:E; [discriminate|].
    cbn [fst snd log]. intros H. inversion H; subst.
    split; [exact E|]. exists texts.
    split; [reflexivity|]. split; [reflexivity|].
    rewrite length_map, <- app_assoc. reflexivity.
  - destruct (read_pages_raises pages e He []) as [e' ->]. discriminate.
Qed.

Lemma extract_pdf_text_some_witness :
  forallb isspace (lit "Python, SQL, 3 years experience") = false.
Proof.
  apply (extract_pdf_text_some scenario_A_file w0). reflexivity.
Defined.

(** X2. The first page whose extraction raises ends the extraction: the
    result is [None] and the exception of that page is logged as an error,
    whatever the pages after it are; nothing is written to the page or sent
    to the backend. *)
Theorem extract_pdf_text_first_failure
  (file_name : pystr) (texts : list pystr) (e : pystr)
  (later : list pdf_page) (w : world) :
  extract_pdf_text
    (mkFile file_name (Pages (List.map Text texts ++ ExtractRaises e :: later))) w =
  (None,
   mkWorld (log w ++ [(INFO, ProcessingPDF file_name);
                      (ERROR, ErrorProcessingPDF e)])
           (requests w) (page w)).
Proof.
  assert (G : forall text,
             read_pages (List.map Text texts ++ ExtractRaises e :: later) text
             = Err e).
  { induction texts as [|t texts IH]; intros text; [reflexivity|].
    cbn [List.map app read_pages]. apply IH. }
  unfold extract_pdf_text, bind, logger, ret. cbn [name PdfReader].
  rewrite G. cbn [log requests page]. rewrite <- app_assoc. reflexivity.
Qed.

(** *** The parser *)

Lemma lstrip_app (s p : pystr) :
  lstrip (s ++ p) =
  match lstrip s with
  | [] => lstrip p
  | _ :: _ => lstrip s ++ p
  end.
Proof.
  induction s as [|c s IH]; [reflexivity|].
  cbn [app lstrip]. destruct (isspace c); [exact IH | reflexivity].
Qed.

Lemma lstrip_spaces (a x : pystr) :
  forallb isspace a = true -> lstrip (a ++ x) = lstrip x.
Proof.
  intros H. apply lstrip_nil in H. rewrite lstrip_app, H. reflexivity.
Qed.

Lemma rstrip_spaces (x b : pystr) :
  forallb isspace b = true -> rstrip (x ++ b) = rstrip x.
Proof.
  intros H. unfold rstrip. rewrite rev_app_distr, lstrip_spaces; [reflexivity|].
  rewrite forallb_rev. exact H.
Qed.

(** Whitespace around a text does not change what [strip] gives. *)
Lemma strip_padding (pre s post : pystr) :
  forallb isspace pre = true -> forallb isspace post = true ->
  strip (pre ++ s ++ post) = strip s.
Proof.
  intros Hpre Hpost. unfold strip.
  rewrite lstrip_spaces by exact Hpre.
  rewrite lstrip_app.
  destruct (lstrip s) as [|c t] eqn:E.
  - apply lstrip_nil in Hpost. rewrite Hpost. reflexivity.
  - apply rstrip_spaces, Hpost.
Qed.

(** X3. Whitespace before and after the response changes nothing: the
    parser returns the same value and logs the same record. *)
Theorem parse_ignores_padding (pre raw post : pystr) (w : world) :
  forallb isspace pre = true -> forallb isspace post = true ->
  parse_gemini_response (pre ++ raw ++ post) w = parse_gemini_response raw w.
Proof.
  intros Hpre Hpost.
  rewrite !parse_unfold, (strip_padding pre raw post Hpre Hpost).
  reflexivity.
Qed.

Lemma parse_ignores_padding_witness :
  parse_gemini_response (litq "  {'JD Match': '70%'} ") w0 =
  parse_gemini_response (litq "{'JD Match': '70%'}") w0.
Proof.
  apply (parse_ignores_padding (lit "  ") (litq "{'JD Match': '70%'}")
                               (lit " ") w0); reflexivity.
Defined.

(** *** The prompt *)

Lemma create_prompt_value (resume_text job_description : pystr) :
  create_prompt resume_text job_description =
  Ok (prompt_head ++ resume_text ++ prompt_middle ++ job_description
      ++ unescape prompt_tail).
Proof. vm_compute. reflexivity. Qed.

(** X4. The prompt does not protect the boundary between its two fields: a
    resume that contains the literal text standing between them (which is
    not empty) gives the same prompt as a shorter resume with a longer job
    description, so different pairs of inputs can produce one prompt. *)
Theorem create_prompt_boundary (a b c : pystr) :
  create_prompt (a ++ prompt_middle ++ b) c =
  create_prompt a (b ++ prompt_middle ++ c)
  /\ prompt_middle <> [].
Proof.
  split.
  - rewrite !create_prompt_value. f_equal. f_equal.
    rewrite <- !app_assoc. reflexivity.
  - vm_compute. discriminate.
Qed.

(** *** The pipeline *)

Lemma parse_frame (raw : pystr) (w : world) :
  page (snd (parse_gemini_response raw w)) = page w /\
  requests (snd (parse_gemini_response raw w)) = requests w.
Proof.
  rewrite parse_unfold.
  destruct (has_braces (strip raw)); [|split; reflexivity].
  destruct (Json.loads (json_str (strip raw))); split; reflexivity.
Qed.

(** [display_results] returns on every dict. *)
Lemma display_results_dict (d : dict) (w : world) :
  display_results (PyDict d) w =
  (Ok tt, mkWorld (log w ++ display_records d) (requests w)
                  (page w ++ shown d)).
Proof.
  unfold display_results, contains_error, shown, display_records,
    display_fallback, bind, logger, st, ret.
  destruct (dict_contains d (lit "error")); cbn [orb log requests page].
  - rewrite <- !app_assoc, app_nil_r. reflexivity.
  - destruct (has_replace (match_percentage d)); cbn [log requests page];
      rewrite <- ?app_assoc, ?app_nil_r; reflexivity.
Qed.

Ltac same_record H :=
  let Hv := fresh "Hv" in
  let Hw := fresh "Hw" in
  apply pair_equal_spec in H; destruct H as [Hv Hw];
  apply (f_equal log) in Hw; unfold logged in Hw; cbn [log] in Hw;
  apply app_inv_head in Hw; inversion Hw; subst;
  rewrite Hv; reflexivity.

Section Tail.

Variable generate_content :
  list pystr -> pystr -> result GenerateContentResponse pystr.
Variable uploaded_file : UploadedFile.
Variable job_description : pystr.
Variable w : world.
Hypothesis described : falsy job_description = false.

Let w1 : world := snd (extract_pdf_text uploaded_file w).

(** The run from the parser on, when extraction and completion gave
    something: the parser returns a dict and the run completes, or
    [json.loads] raises and the exception ends the run after the heading. *)
Lemma run_reaches_parser (resume_text reply : pystr) :
  fst (extract_pdf_text uploaded_file w) = Some resume_text ->
  let prompt := prompt_for resume_text job_description in
  let w2 := snd (get_gemini_response generate_content prompt w1) in
  fst (get_gemini_response generate_content prompt w1) = Some reply ->
  falsy reply = false ->
  (exists (record : level * message) (d : dict),
     parse_gemini_response reply w2 =
       (Ok (PyDict d), mkWorld (log w2 ++ [record]) (requests w2) (page w2)) /\
     main_analysis generate_content (Some uploaded_file) job_description w =
       (Ok tt, finished w2 record d))
  \/
  (exists e : Json.error,
     has_braces (strip reply) = true /\
     Json.loads (json_str (strip reply)) = Json.Raises e /\
     main_analysis generate_content (Some uploaded_file) job_description w =
       (Err (JsonRaised e),
        mkWorld (log w2) (requests w2) (page w2 ++ [ResultsHeading]))).
Proof.
  intros Hsome prompt w2 Hreply Htruthy.
  pose proof (extract_some_truthy _ _ _ Hsome) as Htext.
  assert (Hrun : forall r,
    parse_gemini_response reply
      (mkWorld (log w2) (requests w2) (page w2 ++ [ResultsHeading])) = r ->
    main_analysis generate_content (Some uploaded_file) job_description w =
    match fst r with
    | Err e => (Err e, snd r)
    | Ok analysis_results =>
        let (displayed, w4) := display_results analysis_results (snd r) in
        match displayed with
        | Err e => (Err e, w4)
        | Ok _ => (Ok tt, mkWorld (log w4 ++ [(INFO, AnalysisCompleted)])
                                  (requests w4) (page w4 ++ [Footer]))
        end
    end).
  { intros r Hr.
    unfold w2, prompt, prompt_for, w1 in *. clear w2 prompt.
    unfold main_analysis, bind. rewrite described.
    destruct (extract_pdf_text uploaded_file w) as [r0 wx].
    cbn [fst snd] in *. subst r0.
    change (not_ (Some resume_text)) with (falsy resume_text).
    rewrite Htext. cbv beta iota. rewrite create_prompt_value.
    destruct (get_gemini_response generate_content _ wx) as [resp wy].
    cbn [fst snd] in *. subst resp.
    change (not_ (Some reply)) with (falsy reply).
    rewrite Htruthy.
    unfold st at 1. cbv beta iota. rewrite Hr.
    destruct r as [[v|e] w3]; cbn [fst snd]; [|reflexivity].
    destruct (display_results v w3) as [[u|e] w4]; reflexivity. }
  destruct (parse_outcomes reply w2) as [[d Hd]|(e & Hb & Hl & He)].
  - left.
    assert (Hrec : exists record,
               parse_gemini_response reply w2 =
               (Ok (PyDict d),
                mkWorld (log w2 ++ [record]) (requests w2) (page w2))).
    { revert Hd. rewrite parse_unfold.
      destruct (has_braces (strip reply)).
      - destruct (Json.loads (json_str (strip reply))); cbn [fst]; intros H.
        + inversion H; subst. eexists. reflexivity.
        + rewrite H. eexists. reflexivity.
        + discriminate H.
        + discriminate H.
      - cbn [fst]. intros H. rewrite H. eexists. reflexivity. }
    destruct Hrec as [record Hrec]. exists record, d.
    split; [exact Hrec|].
    assert (Hrec' :
      parse_gemini_response reply
        (mkWorld (log w2) (requests w2) (page w2 ++ [ResultsHeading])) =
      (Ok (PyDict d),
       mkWorld (log w2 ++ [record]) (requests w2)
               (page w2 ++ [ResultsHeading]))).
    { revert Hrec. rewrite !parse_unfold.
      destruct (has_braces (strip reply)).
      - destruct (Json.loads (json_str (strip reply))); intros H;
          [same_record H | same_record H | discriminate H | discriminate H].
      - intros H. same_record H. }
    rewrite (Hrun _ Hrec'). cbn [fst snd].
    rewrite display_results_dict.
    unfold finished. cbn [log requests page].
    rewrite <- !app_assoc. reflexivity.
  - right. exists e. split; [exact Hb|]. split; [exact Hl|].
    rewrite (Hrun _ eq_refl), parse_unfold, Hb, Hl. reflexivity.
Qed.

End Tail.

Lemma get_gemini_ok
      (generate_content :
         list pystr -> pystr -> result GenerateContentResponse pystr)
      (input_text reply : pystr) (w : world) :
  generate_content (requests w) input_text = Ok (mkResponse (Ok reply)) ->
  get_gemini_response generate_content input_text w =
  (Some reply,
   mkWorld (log w ++ [(INFO, GeneratingResponse); (INFO, ResponseGenerated)])
           (requests w ++ [input_text]) (page w)).
Proof.
  intros H. unfold get_gemini_response, call_backend, bind, logger, ret.
  cbn [log requests page]. rewrite H. cbn [log requests page response_text].
  rewrite <- app_assoc. reflexivity.
Qed.

(** Every run of the analysis block, by its three stages. *)
Lemma run_cases
      (generate_content :
         list pystr -> pystr -> result GenerateContentResponse pystr)
      (uploaded_file : UploadedFile) (job_description : pystr) (w : world) :
  falsy job_description = false ->
  let w1 := snd (extract_pdf_text uploaded_file w) in
  (fst (extract_pdf_text uploaded_file w) = None /\
   main_analysis generate_content (Some uploaded_file) job_description w =
   (Ok tt, mkWorld (log w1) (requests w1) (page w1 ++ [ErrorExtraction])))
  \/
  (exists resume_text,
     fst (extract_pdf_text uploaded_file w) = Some resume_text /\
     let prompt := prompt_for resume_text job_description in
     let w2 := snd (get_gemini_response generate_content prompt w1) in
     (main_analysis generate_content (Some uploaded_file) job_description w =
      (Ok tt, mkWorld (log w2) (requests w2) (page w2 ++ [ErrorCompletion]))
      \/
      (exists record d,
         main_analysis generate_content (Some uploaded_file) job_description w =
         (Ok tt, finished w2 record d))
      \/
      (exists e reply,
         Json.loads (json_str (strip reply)) = Json.Raises e /\
         main_analysis generate_content (Some uploaded_file) job_description w =
         (Err (JsonRaised e),
          mkWorld (log w2) (requests w2) (page w2 ++ [ResultsHeading]))))).
Proof.
  intros Hjd w1.
  destruct (fst (extract_pdf_text uploaded_file w)) as [resume_text|] eqn:E.
  - right. exists resume_text. split; [reflexivity|]. intros prompt w2.
    destruct (not_ (fst (get_gemini_response generate_content prompt w1)))
      eqn:N.
    + left.
      apply (run_completion_fails generate_content _ _ _ Hjd resume_text prompt
               E (create_prompt_value _ _) N).
    + right.
      destruct (fst (get_gemini_response generate_content prompt w1))
        as [reply|] eqn:G; [|discriminate N].
      destruct (run_reaches_parser generate_content _ _ _ Hjd resume_text
                  reply E G N) as [(record & d & _ & H)|(e & _ & Hl & H)].
      * left. exists record, d. exact H.
      * right. exists e, reply. split; [exact Hl | exact H].
  - left. split; [reflexivity|].
    apply (run_extraction_fails generate_content _ _ _ Hjd E).
Qed.

Lemma run_requests
      (generate_content :
         list pystr -> pystr -> result GenerateContentResponse pystr)
      (uploaded_file : option UploadedFile) (job_description : pystr)
      (w : world) :
  requests (snd (main_analysis generate_content uploaded_file job_description w))
  = requests w ++ requests_sent uploaded_file job_description w.
Proof.
  unfold requests_sent.
  destruct uploaded_file as [f|]; [|cbn; rewrite app_nil_r; reflexivity].
  destruct (falsy job_description) eqn:Hjd.
  - unfold main_analysis. rewrite Hjd. cbn. rewrite app_nil_r. reflexivity.
  - pose proof (extract_frame f w) as Hf. cbv zeta in Hf.
    destruct Hf as (_ & Hr1 & _).
    destruct (run_cases generate_content f job_description w Hjd)
      as [[E H]|(t & E & [H|[(record & d & H)|(e & reply & _ & H)]])];
      rewrite H, E; cbn [snd requests finished].
    + rewrite Hr1, app_nil_r. reflexivity.
    + pose proof (get_gemini_frame generate_content (prompt_for t job_description)
                    (snd (extract_pdf_text f w))) as Hg.
      cbv zeta in Hg. destruct Hg as (_ & Hr2 & _).
      rewrite Hr2, Hr1. reflexivity.
    + pose proof (get_gemini_frame generate_content (prompt_for t job_description)
                    (snd (extract_pdf_text f w))) as Hg.
      cbv zeta in Hg. destruct Hg as (_ & Hr2 & _).
      rewrite Hr2, Hr1. reflexivity.
    + pose proof (get_gemini_frame generate_content (prompt_for t job_description)
                    (snd (extract_pdf_text f w))) as Hg.
      cbv zeta in Hg. destruct Hg as (_ & Hr2 & _).
      rewrite Hr2, Hr1. reflexivity.
Qed.


(** X6. One run sends at most one request to the backend: none when the
    file or the job description is missing or the extraction fails, and
    otherwise exactly the template filled with the extracted text and the
    job description; earlier requests are kept. *)
Theorem main_analysis_requests
      (generate_content :
         list pystr -> pystr -> result GenerateContentResponse pystr)
      (uploaded_file : option UploadedFile) (job_description : pystr)
      (w : world) :
  requests (snd (main_analysis generate_content uploaded_file job_description w))
  = requests w ++ requests_sent uploaded_file job_description w
  /\ (List.length (requests_sent uploaded_file job_description w) <= 1)%nat.
Proof.
  split; [apply run_requests|].
  unfold requests_sent.
  destruct uploaded_file as [f|]; [|cbn; lia].
  destruct (falsy job_description); [cbn; lia|].
  destruct (fst (extract_pdf_text f w)); cbn; lia.
Qed.

Lemma no_brace_no_json (reply : pystr) :
  ~ In lbrace reply -> has_braces (strip reply) = false.
Proof.
  intros H.
  assert (Hs : ~ In lbrace (strip reply)).
  { intros Hin. apply H. unfold strip in Hin.
    apply rstrip_incl, lstrip_incl in Hin. exact Hin. }
  apply find_absent in Hs. unfold has_braces.
  destruct (Z.geb_spec (find lbrace (strip reply)) 0); [lia | reflexivity].
Qed.

(** X7. When the backend answers with a text that has no opening brace,
    the run shows the results heading, then the error with the stripped
    answer as raw response, then the footer, and logs the parser's error
    before the completion of the analysis. *)
Theorem main_analysis_reply_without_json
      (generate_content :
         list pystr -> pystr -> result GenerateContentResponse pystr)
      (uploaded_file : UploadedFile) (job_description : pystr) (w : world)
      (resume_text reply : pystr) :
  falsy job_description = false ->
  fst (extract_pdf_text uploaded_file w) = Some resume_text ->
  generate_content (requests w) (prompt_for resume_text job_description)
    = Ok (mkResponse (Ok reply)) ->
  falsy reply = false ->
  ~ In lbrace reply ->
  let w1 := snd (extract_pdf_text uploaded_file w) in
  let run := main_analysis generate_content (Some uploaded_file)
                           job_description w in
  page (snd run) =
    page w ++ [ResultsHeading; ErrorAnalyzing;
               StWrite (PyStr (lit "Raw response:"));
               StWrite (PyStr (strip reply)); Footer]
  /\
  log (snd run) =
    log w1 ++ [(INFO, GeneratingResponse); (INFO, ResponseGenerated);
               (ERROR, NoJSONFound); (INFO, AnalysisCompleted)].
Proof.
  intros Hjd E Hgen Htruthy Hno w1 run.
  pose proof (extract_frame uploaded_file w) as Hf. cbv zeta in Hf.
  destruct Hf as (Hp1 & Hr1 & _). fold w1 in Hp1, Hr1.
  assert (G : get_gemini_response generate_content
                (prompt_for resume_text job_description) w1 =
              (Some reply,
               mkWorld (log w1 ++ [(INFO, GeneratingResponse);
                                   (INFO, ResponseGenerated)])
                       (requests w1 ++ [prompt_for resume_text job_description])
                       (page w1))).
  { apply get_gemini_ok. rewrite Hr1. exact Hgen. }
  destruct (run_reaches_parser generate_content _ _ _ Hjd resume_text reply E)
    as [(record & d & Hparse & Hrun)|(e & Hb & _)];
    [fold w1; rewrite G; reflexivity | exact Htruthy | |
     rewrite (no_brace_no_json reply Hno) in Hb; discriminate Hb].
  fold w1 in Hparse, Hrun. rewrite G in Hparse, Hrun. cbn [snd] in Hparse, Hrun.
  rewrite parse_unfold, (no_brace_no_json reply Hno) in Hparse.
  apply pair_equal_spec in Hparse. destruct Hparse as [Hv Hw].
  apply (f_equal log) in Hw. unfold logged in Hw. cbn [log] in Hw.
  apply app_inv_head in Hw. inversion Hw; subst record.
  inversion Hv; subst d.
  unfold run. rewrite Hrun. unfold finished. cbn [snd page log].
  rewrite Hp1. split.
  - f_equal.
  - rewrite <- app_assoc. reflexivity.
Qed.

Lemma main_analysis_reply_without_json_witness :
  page (snd (main_analysis scenario_B_stub (Some scenario_A_file)
                           scenario_A_jd w0)) =
  [ResultsHeading; ErrorAnalyzing; StWrite (PyStr (lit "Raw response:"));
   StWrite (PyStr (lit "I cannot process this request.")); Footer].
Proof.
  apply (main_analysis_reply_without_json scenario_B_stub scenario_A_file
           scenario_A_jd w0 (lit "Python, SQL, 3 years experience")
           (lit "I cannot process this request.")).
  - reflexivity.
  - reflexivity.
  - reflexivity.
  - reflexivity.
  - apply lit_absent. vm_compute. reflexivity.
Defined.

(** X8. A response with an empty text counts as a failed completion: the
    run shows the completion error and stops before the results heading
    and the parser, although the log records the response as generated
    and holds no error of this stage. *)
Theorem main_analysis_empty_reply
      (generate_content :
         list pystr -> pystr -> result GenerateContentResponse pystr)
      (uploaded_file : UploadedFile) (job_description : pystr) (w : world)
      (resume_text : pystr) :
  falsy job_description = false ->
  fst (extract_pdf_text uploaded_file w) = Some resume_text ->
  generate_content (requests w) (prompt_for resume_text job_description)
    = Ok (mkResponse (Ok [])) ->
  let w1 := snd (extract_pdf_text uploaded_file w) in
  let run := main_analysis generate_content (Some uploaded_file)
                           job_description w in
  page (snd run) = page w ++ [ErrorCompletion] /\
  log (snd run) =
    log w1 ++ [(INFO, GeneratingResponse); (INFO, ResponseGenerated)].
Proof.
  intros Hjd E Hgen w1 run.
  pose proof (extract_frame uploaded_file w) as Hf. cbv zeta in Hf.
  destruct Hf as (Hp1 & Hr1 & _). fold w1 in Hp1, Hr1.
  assert (G : get_gemini_response generate_content
                (prompt_for resume_text job_description) w1 =
              (Some [],
               mkWorld (log w1 ++ [(INFO, GeneratingResponse);
                                   (INFO, ResponseGenerated)])
                       (requests w1 ++ [prompt_for resume_text job_description])
                       (page w1))).
  { apply get_gemini_ok. rewrite Hr1. exact Hgen. }
  unfold run.
  rewrite (run_completion_fails generate_content _ _ _ Hjd resume_text
             (prompt_for resume_text job_description) E
             (create_prompt_value _ _)).
  - fold w1. rewrite G. cbn [snd page log]. rewrite Hp1. split; reflexivity.
  - fold w1. rewrite G. reflexivity.
Qed.

Lemma main_analysis_empty_reply_witness :
  page (snd (main_analysis silent_backend (Some scenario_A_file)
                           scenario_A_jd w0)) = [ErrorCompletion].
Proof.
  apply (main_analysis_empty_reply silent_backend scenario_A_file
           scenario_A_jd w0 (lit "Python, SQL, 3 years experience"));
    reflexivity.
Defined.

(** X13. A response whose text cannot be read counts as a failed
    completion as well: the run shows the completion error and stops
    before the results heading and the parser.  The log then holds both
    the record that the response was generated, written before the text
    is read, and the error record with the message of the exception. *)
Theorem main_analysis_unreadable_reply
      (generate_content :
         list pystr -> pystr -> result GenerateContentResponse pystr)
      (uploaded_file : UploadedFile) (job_description : pystr) (w : world)
      (resume_text e : pystr) :
  falsy job_description = false ->
  fst (extract_pdf_text uploaded_file w) = Some resume_text ->
  generate_content (requests w) (prompt_for resume_text job_description)
    = Ok (mkResponse (Err e)) ->
  let w1 := snd (extract_pdf_text uploaded_file w) in
  let run := main_analysis generate_content (Some uploaded_file)
                           job_description w in
  fst run = Ok tt /\
  page (snd run) = page w ++ [ErrorCompletion] /\
  log (snd run) =
    log w1 ++ [(INFO, GeneratingResponse); (INFO, ResponseGenerated);
               (ERROR, ErrorGeneratingResponse e)].
Proof.
  intros Hjd E Hgen w1 run.
  pose proof (extract_frame uploaded_file w) as Hf. cbv zeta in Hf.
  destruct Hf as (Hp1 & Hr1 & _). fold w1 in Hp1, Hr1.
  assert (G : get_gemini_response generate_content
                (prompt_for resume_text job_description) w1 =
              (None,
               mkWorld (log w1 ++ [(INFO, GeneratingResponse);
                                   (INFO, ResponseGenerated);
                                   (ERROR, ErrorGeneratingResponse e)])
                       (requests w1 ++ [prompt_for resume_text job_description])
                       (page w1))).
  { unfold get_gemini_response, call_backend, bind, logger, ret.
    cbn [log requests page]. rewrite Hr1, Hgen.
    cbn [log requests page response_text].
    rewrite <- !app_assoc. reflexivity. }
  unfold run.
  rewrite (run_completion_fails generate_content _ _ _ Hjd resume_text
             (prompt_for resume_text job_description) E
             (create_prompt_value _ _)).
  - fold w1. rewrite G. cbn [fst snd page log]. rewrite Hp1.
    split; [reflexivity|]. split; reflexivity.
  - fold w1. rewrite G. reflexivity.
Qed.

Lemma main_analysis_unreadable_reply_witness :
  let run := main_analysis blocked_backend (Some scenario_A_file)
                           scenario_A_jd w0 in
  fst run = Ok tt /\
  page (snd run) = [ErrorCompletion] /\
  log (snd run) =
    log (snd (extract_pdf_text scenario_A_file w0))
    ++ [(INFO, GeneratingResponse); (INFO, ResponseGenerated);
        (ERROR, ErrorGeneratingResponse
                  (lit "response.text requires a valid Part"))].
Proof.
  apply (main_analysis_unreadable_reply blocked_backend scenario_A_file
           scenario_A_jd w0 (lit "Python, SQL, 3 years experience")
           (lit "response.text requires a valid Part"));
    reflexivity.
Defined.

Lemma has_braces_truthy (reply : pystr) :
  has_braces (strip reply) = true -> falsy reply = false.
Proof. destruct reply; [vm_compute; discriminate | reflexivity]. Qed.

(** X9. When the substring of the answer decodes to a dict, what is
    displayed depends on that dict alone.  With a key [error], whatever
    its value: the error and the value of [raw_response] (or "No response
    available" when that key is missing).  Without it, and with a [str]
    under [JD Match] (or no such key): the result tabs of the dict as
    decoded.  Without it, and with another object under [JD Match]: the
    tabs are created and stay empty, since the call of its [replace]
    raises under the [try]; the handler logs the error and writes it to
    the page, followed by the dict as raw data.  The heading comes before
    and the footer after, and the run completes in all three cases. *)
Theorem main_analysis_decoded_reply
      (generate_content :
         list pystr -> pystr -> result GenerateContentResponse pystr)
      (uploaded_file : UploadedFile) (job_description : pystr) (w : world)
      (resume_text reply : pystr) (d : dict) :
  falsy job_description = false ->
  fst (extract_pdf_text uploaded_file w) = Some resume_text ->
  generate_content (requests w) (prompt_for resume_text job_description)
    = Ok (mkResponse (Ok reply)) ->
  has_braces (strip reply) = true ->
  Json.loads (json_str (strip reply)) = Json.Decoded (PyDict d) ->
  let w1 := snd (extract_pdf_text uploaded_file w) in
  let run := main_analysis generate_content (Some uploaded_file)
                           job_description w in
  fst run = Ok tt
  /\
  page (snd run) =
    page w ++ [ResultsHeading]
    ++ (if dict_contains d (lit "error") then
          [ErrorAnalyzing;
           StWrite (PyStr (lit "Raw response:"));
           StWrite (dict_get d (lit "raw_response")
                             (PyStr (lit "No response available")))]
        else
          match dict_get d (lit "JD Match") (PyStr (lit "N/A")) with
          | PyStr _ => [ResultTabs d]
          | score =>
              [EmptyTabs;
               ErrorDisplaying score (lit "replace");
               StWrite (PyStr (lit "Raw data:"));
               StWrite (PyDict d)]
          end)
    ++ [Footer]
  /\
  log (snd run) =
    log w1 ++ [(INFO, GeneratingResponse); (INFO, ResponseGenerated);
               (INFO, ParsedJSON)]
    ++ (if dict_contains d (lit "error") then []
        else
          match dict_get d (lit "JD Match") (PyStr (lit "N/A")) with
          | PyStr _ => []
          | score => [(ERROR, ErrorDisplayingResults score (lit "replace"))]
          end)
    ++ [(INFO, AnalysisCompleted)].
Proof.
  intros Hjd E Hgen Hb Hd w1 run.
  pose proof (extract_frame uploaded_file w) as Hf. cbv zeta in Hf.
  destruct Hf as (Hp1 & Hr1 & _). fold w1 in Hp1, Hr1.
  assert (G : get_gemini_response generate_content
                (prompt_for resume_text job_description) w1 =
              (Some reply,
               mkWorld (log w1 ++ [(INFO, GeneratingResponse);
                                   (INFO, ResponseGenerated)])
                       (requests w1 ++ [prompt_for resume_text job_description])
                       (page w1))).
  { apply get_gemini_ok. rewrite Hr1. exact Hgen. }
  destruct (run_reaches_parser generate_content _ _ _ Hjd resume_text reply E)
    as [(record & d' & Hparse & Hrun)|(e & _ & Hl & _)];
    [fold w1; rewrite G; reflexivity | apply has_braces_truthy, Hb | |
     rewrite Hd in Hl; discriminate Hl].
  fold w1 in Hparse, Hrun. rewrite G in Hparse, Hrun. cbn [snd] in Hparse, Hrun.
  rewrite parse_unfold, Hb, Hd in Hparse.
  apply pair_equal_spec in Hparse. destruct Hparse as [Hv Hw].
  apply (f_equal log) in Hw. unfold logged in Hw. cbn [log] in Hw.
  apply app_inv_head in Hw. inversion Hw; subst record.
  inversion Hv; subst d'.
  unfold run. rewrite Hrun.
  unfold finished, shown, display_records, match_percentage, has_replace.
  cbn [fst snd page log]. rewrite Hp1.
  split; [reflexivity|].
  destruct (dict_contains d (lit "error")); cbn [orb].
  - split; [reflexivity|]. rewrite <- app_assoc. reflexivity.
  - destruct (dict_get d (lit "JD Match") (PyStr (lit "N/A")));
      (split; [reflexivity|]); rewrite <- app_assoc; reflexivity.
Qed.

(** Scenario A, and a reply whose score is a number. *)
Lemma main_analysis_decoded_reply_witness :
  page (snd (main_analysis scenario_A_stub (Some scenario_A_file)
                           scenario_A_jd w0)) =
  [ResultsHeading; ResultTabs scenario_A_result; Footer]
  /\
  page (snd (main_analysis numeric_backend (Some scenario_A_file)
                           scenario_A_jd w0)) =
  [ResultsHeading; EmptyTabs;
   ErrorDisplaying (PyInt 70) (lit "replace");
   StWrite (PyStr (lit "Raw data:"));
   StWrite (PyDict [(lit "JD Match", PyInt 70)]); Footer].
Proof.
  split.
  - apply (main_analysis_decoded_reply scenario_A_stub scenario_A_file
             scenario_A_jd w0 (lit "Python, SQL, 3 years experience")
             scenario_A_reply scenario_A_result);
      try reflexivity; vm_compute; reflexivity.
  - apply (main_analysis_decoded_reply numeric_backend scenario_A_file
             scenario_A_jd w0 (lit "Python, SQL, 3 years experience")
             (litq "{'JD Match': 70}") [(lit "JD Match", PyInt 70)]);
      try reflexivity; vm_compute; reflexivity.
Defined.

(** *** The result tabs *)

Lemma half_bounds (n : Z) :
  0 <= n -> 0 <= half n <= n /\ (2 * half n = n \/ 2 * half n = n + 1).
Proof.
  intros Hn. unfold half.
  pose proof (Z.div_mod n 2 ltac:(lia)) as D.
  pose proof (Z.mod_pos_bound n 2 ltac:(lia)) as B.
  lia.
Qed.

Lemma nonempty_list_some (x : pyval) (l : list pyval) :
  nonempty_list x = Some l -> x = PyList l /\ l <> [].
Proof.
  destruct x as [| | | | |items|]; try discriminate.
  destruct items as [|v items]; [discriminate|].
  cbn. intros H. inversion H; subst. split; [reflexivity | discriminate].
Qed.

Lemma dict_get_nonempty_list (d : dict) (k : pystr) (l : list pyval) :
  dict_get d k (PyList []) = PyList l -> l <> [] ->
  dict_lookup d k = Some (PyList l).
Proof.
  unfold dict_get. destruct (dict_lookup d k) as [v|].
  - intros ->. reflexivity.
  - intros H. inversion H; subst. congruence.
Qed.

(** X10. Every expander of the skills-gap tab belongs to one of the four
    fixed categories and shows all the skills the reply lists under it, in
    order and none twice: the first column followed by the second is that
    list, the count in the title is its length, and the first column has as
    many cards as the second, or one more. *)
Theorem skills_gap_expander
  (analysis_results : dict) (category : pystr) (count : Z)
  (col1 col2 : list pyval) :
  In (Expander category count col1 col2) (skills_gap_tab analysis_results) ->
  In category categories /\
  (exists missing_keywords,
     dict_lookup analysis_results (lit "MissingKeywords")
       = Some (PyDict missing_keywords) /\
     dict_lookup missing_keywords category = Some (PyList (col1 ++ col2))) /\
  count = list_len (col1 ++ col2) /\ 0 < count /\
  (List.length col1 = List.length col2 \/
   List.length col1 = S (List.length col2)).
Proof.
  unfold skills_gap_tab.
  destruct (tabs_written analysis_results); [|intros []].
  unfold skills_gap_block.
  destruct (dict_get analysis_results (lit "MissingKeywords") (PyDict []))
    as [| | | | |items|items] eqn:G;
    try (intros [H|[]]; discriminate H).
  - destruct items as [|k ks]; [intros [H|[]]; discriminate H|].
    intros [H|H]; [discriminate H|].
    apply in_map_iff in H. destruct H as (x & Hx & _). discriminate Hx.
  - destruct items as [|item items]; [intros [H|[]]; discriminate H|].
    intros [H|H]; [discriminate H|].
    apply in_flat_map in H. destruct H as (c & Hc & Hin).
    unfold category_widgets in Hin.
    destruct (nonempty_list (dict_get (item :: items) c (PyList [])))
      as [skills|] eqn:N; [|destruct Hin].
    destruct Hin as [Hin|[]].
    apply nonempty_list_some in N. destruct N as [Hget Hne].
    unfold expander in Hin. inversion Hin; subst category count col1 col2.
    clear Hin.
    assert (Hlen : 0 <= list_len skills) by (unfold list_len; lia).
    destruct (half_bounds (list_len skills) Hlen) as [Hh Hpar].
    rewrite firstn_skipn.
    split; [exact Hc|]. split; [|split; [reflexivity|split]].
    + exists (item :: items). split.
      * unfold dict_get in G.
        destruct (dict_lookup analysis_results (lit "MissingKeywords"));
          [rewrite G; reflexivity | discriminate G].
      * apply dict_get_nonempty_list; assumption.
    + unfold list_len. destruct skills; [congruence | cbn; lia].
    + rewrite length_firstn, length_skipn. unfold list_len in *. lia.
Qed.

Lemma skills_gap_expander_witness :
  In (lit "Technical Skills") categories.
Proof.
  apply (skills_gap_expander
           [(lit "MissingKeywords",
             PyDict [(lit "Technical Skills",
                      PyList [PyStr (lit "AWS"); PyStr (lit "Docker");
                              PyStr (lit "Go")])])]
           (lit "Technical Skills") 3
           [PyStr (lit "AWS"); PyStr (lit "Docker")] [PyStr (lit "Go")]).
  right. left. reflexivity.
Defined.

(** X11. When the tabs are written (the result has no key [error] and
    the score tab raises nothing), a non-empty [MissingKeywords] dict in
    which none of the four fixed categories holds a non-empty list (its
    keys are named otherwise, or its values are no lists) leaves the
    skills-gap tab with its heading alone: no skill is shown and the
    notice that no keywords were found is not written. *)
Theorem skills_gap_heading_only
  (analysis_results missing_keywords : dict) :
  tabs_written analysis_results = true ->
  dict_lookup analysis_results (lit "MissingKeywords")
    = Some (PyDict missing_keywords) ->
  missing_keywords <> [] ->
  (forall category, In category categories ->
     nonempty_list (dict_get missing_keywords category (PyList [])) = None) ->
  skills_gap_tab analysis_results = [GapHeading].
Proof.
  intros Htabs Hmk Hne Hnone.
  unfold skills_gap_tab. rewrite Htabs.
  unfold skills_gap_block, dict_get. rewrite Hmk.
  destruct missing_keywords as [|item items]; [congruence|].
  f_equal.
  assert (G : forall cs, (forall c, In c cs -> In c categories) ->
                flat_map (category_widgets (item :: items)) cs = []).
  { induction cs as [|c cs IH]; intros Hin; [reflexivity|].
    cbn [flat_map]. unfold category_widgets at 1.
    rewrite (Hnone c (Hin c (or_introl eq_refl))).
    apply IH. intros c' Hc'. apply Hin. right. exact Hc'. }
  apply G. intros c Hc. exact Hc.
Qed.

Lemma skills_gap_heading_only_witness :
  skills_gap_tab [(lit "MissingKeywords",
                   PyDict [(lit "Tools", PyList [PyStr (lit "AWS")])])]
  = [GapHeading].
Proof.
  apply (skills_gap_heading_only _ [(lit "Tools", PyList [PyStr (lit "AWS")])]).
  - reflexivity.
  - reflexivity.
  - discriminate.
  - intros category Hin.
    repeat (destruct Hin as [<-|Hin]; [reflexivity|]). destruct Hin.
Defined.

Lemma enumerate_nth (items : list pyval) :
  forall (start : Z) (k : nat) (x : pyval),
    nth_error items k = Some x ->
    nth_error (enumerate start items) k = Some (start + Z.of_nat k, x).
Proof.
  induction items as [|y items IH]; intros start k x H.
  - destruct k; discriminate H.
  - destruct k as [|k].
    + cbn in H. inversion H; subst. cbn [enumerate nth_error].
      rewrite Z.add_0_r. reflexivity.
    + cbn [enumerate nth_error] in *. rewrite (IH (start + 1) k x H).
      f_equal. f_equal. lia.
Qed.

Lemma enumerate_length (items : list pyval) :
  forall start, List.length (enumerate start items) = List.length items.
Proof.
  induction items as [|y items IH]; intros start; [reflexivity|].
  cbn [enumerate List.length]. rewrite IH. reflexivity.
Qed.

(** X12. When the tabs are written (the result has no key [error] and
    the score tab raises nothing), the recommendations tab numbers the
    suggestions from 1, in the order of the reply, one card each, between
    its heading and the two widgets of the next steps; when the reply
    holds no non-empty list of suggestions, or the tabs are not written,
    the tab stays empty. *)
Theorem recommendations_numbered (analysis_results : dict) :
  (forall suggestions,
     tabs_written analysis_results = true ->
     nonempty_list (dict_get analysis_results (lit "Improvement Suggestions")
                             (PyList [])) = Some suggestions ->
     List.length (recommendations_tab analysis_results)
       = (List.length suggestions + 3)%nat /\
     nth_error (recommendations_tab analysis_results) 0 = Some AdviceHeading /\
     (forall (k : nat) (suggestion : pyval),
        nth_error suggestions k = Some suggestion ->
        nth_error (recommendations_tab analysis_results) (S k)
          = Some (AdviceCard (Z.of_nat k + 1) suggestion)) /\
     skipn (S (List.length suggestions)) (recommendations_tab analysis_results)
       = [NextStepsHeading; NextStepsList])
  /\
  (nonempty_list (dict_get analysis_results (lit "Improvement Suggestions")
                           (PyList [])) = None ->
   recommendations_tab analysis_results = [])
  /\
  (tabs_written analysis_results = false ->
   recommendations_tab analysis_results = []).
Proof.
  unfold recommendations_tab. split; [|split].
  - intros suggestions -> H. unfold recommendations_block. rewrite H.
    set (cards := List.map (fun p => AdviceCard (fst p) (snd p))
                           (enumerate 1 suggestions)).
    assert (Hlen : List.length cards = List.length suggestions)
      by (unfold cards; rewrite length_map; apply enumerate_length).
    split; [|split; [reflexivity|split]].
    + cbn [List.length]. rewrite length_app, Hlen. cbn. lia.
    + intros k suggestion Hk. cbn [nth_error].
      rewrite nth_error_app1
        by (rewrite Hlen; apply nth_error_Some; congruence).
      unfold cards. rewrite nth_error_map.
      rewrite (enumerate_nth suggestions 1 k suggestion Hk).
      cbn [option_map fst snd]. rewrite Z.add_comm. reflexivity.
    + cbn [skipn]. rewrite <- Hlen, skipn_app, skipn_all, Nat.sub_diag.
      reflexivity.
  - intros H. unfold recommendations_block. rewrite H.
    destruct (tabs_written analysis_results); reflexivity.
  - intros ->. reflexivity.
Qed.

Lemma recommendations_numbered_witness :
  nth_error (recommendations_tab scenario_A_result) 1
  = Some (AdviceCard 1 (PyStr (lit "Add AWS experience"))).
Proof.
  apply (proj1 (recommendations_numbered scenario_A_result)
               [PyStr (lit "Add AWS experience")] eq_refl eq_refl).
  reflexivity.
Defined.

End Extras.
